(** * raw2vhd: RAW disk image to fixed-size VHD conversion

    A shallow embedding of [raw2vhd.py] (a Python 2 script: [/] on
    integers is floor division and [str] is a byte string) and the
    properties of its geometry computation, its footer encoder and its
    conversion routine. *)

From Stdlib Require Import ZArith List Lia Bool.
From Stdlib Require Import Strings.Ascii Strings.String Strings.Byte.
From stdpp Require Import gmap strings list.

Local Open Scope Z_scope.

(** ** Geometry: [vhd_chs] *)

Module Chs.

(** [vhd_chs(size)], local variables as let-bindings; a conditional
    that reassigns several locals returns them as a tuple. *)
Definition vhd_chs (size : Z) : Z * Z * Z :=
  let sectors := size / 512 in
  let sectors := if sectors >? 65535 * 16 * 255 then 65535 * 16 * 255 else sectors in
  let '(cylinder_times_heads, heads, sectors_per_track) :=
    if sectors >=? 65535 * 16 * 63 then
      let sectors_per_track := 255 in
      let heads := 16 in
      let cylinder_times_heads := sectors / sectors_per_track in
      (cylinder_times_heads, heads, sectors_per_track)
    else
      let sectors_per_track := 17 in
      let cylinder_times_heads := sectors / sectors_per_track in
      let heads := Z.shiftr (cylinder_times_heads + 1023) 10 in
      let heads := if heads <? 4 then 4 else heads in
      let '(cylinder_times_heads, heads, sectors_per_track) :=
        if (cylinder_times_heads >=? Z.shiftl heads 10) || (heads >? 16) then
          let sectors_per_track := 31 in
          let heads := 16 in
          (sectors / sectors_per_track, heads, sectors_per_track)
        else (cylinder_times_heads, heads, sectors_per_track) in
      let '(cylinder_times_heads, heads, sectors_per_track) :=
        if cylinder_times_heads >=? Z.shiftl heads 10 then
          let sectors_per_track := 63 in
          let heads := 16 in
          (sectors / sectors_per_track, heads, sectors_per_track)
        else (cylinder_times_heads, heads, sectors_per_track) in
      (cylinder_times_heads, heads, sectors_per_track) in
  let cylinders := cylinder_times_heads / heads in
  (cylinders, heads, sectors_per_track).

(** The three components of the returned tuple. *)
Definition chs_cylinders (size : Z) : Z := fst (fst (vhd_chs size)).
Definition chs_heads (size : Z) : Z := snd (fst (vhd_chs size)).
Definition chs_sectors_per_track (size : Z) : Z := snd (vhd_chs size).

(** *** The decision procedure as the specification words it

    This second definition follows section 4.1 of the specification
    step by step; it is compared with [vhd_chs] below. *)

Record Geometry : Type := mkGeometry {
  cylinders : Z;
  heads : Z;
  sectorsPerTrack : Z
}.

(** Step 4 of the procedure: the start at 17 sectors per track and the
    two conditional switches; returns (cylinderTimesHeads, heads,
    sectorsPerTrack). *)
Definition spec_small_branch (sectors : Z) : Z * Z * Z :=
  let cth17 := sectors / 17 in
  let heads17 := Z.max 4 (Z.shiftr (cth17 + 1023) 10) in
  let after31 :=
    if (heads17 * 1024 <=? cth17) || (16 <? heads17)
    then (sectors / 31, 16, 31)
    else (cth17, heads17, 17) in
  match after31 with
  | (cth, h, spt) =>
      if h * 1024 <=? cth then (sectors / 63, 16, 63) else (cth, h, spt)
  end.

Definition spec_computeGeometry (imageSizeBytes : Z) : Geometry :=
  let sectors := Z.min (imageSizeBytes / 512) (65535 * 16 * 255) in
  let '(cylinderTimesHeads, h, spt) :=
    if 65535 * 16 * 63 <=? sectors
    then (sectors / 255, 16, 255)
    else spec_small_branch sectors in
  mkGeometry (cylinderTimesHeads / h) h spt.

End Chs.

(** ** Exceptions *)

(** The exceptions the script can end with: [OSError] from
    [os.path.getsize], [struct.error] from [struct.pack], and the plain
    [Exception] that [convert] raises itself, with its message. *)
Inductive exn : Type :=
  | OSError
  | IOError
  | StructError
  | Exception (msg : string).

Inductive result (A : Type) : Type :=
  | Ok (a : A)
  | Raise (e : exn).
Arguments Ok {A} a.
Arguments Raise {A} e.

Definition bind {A B : Type} (m : result A) (k : A -> result B) : result B :=
  match m with
  | Ok a => k a
  | Raise e => Raise e
  end.

Notation "'let!' x ':=' m 'in' k" := (bind m (fun x => k))
  (at level 10, x name, m at level 100, k at level 200).

(** ** Byte strings and [struct.pack] *)

Module Struct.

(** A byte from the low eight bits of an integer, and back. *)
Definition byte_of_Z (z : Z) : byte :=
  match Byte.of_N (Z.to_N (z mod 256)) with
  | Some b => b
  | None => x00
  end.

Definition Z_of_byte (b : byte) : Z := Z.of_N (Byte.to_N b).

(** A Python 2 [str] literal as the bytes it holds. *)
Definition bytes_of (s : string) : list byte := list_byte_of_string s.

(** Big-endian encoding on [n] bytes: most significant byte first. *)
Fixpoint be_bytes (n : nat) (v : Z) : list byte :=
  match n with
  | O => []
  | S k => byte_of_Z (Z.shiftr v (8 * Z.of_nat k)) :: be_bytes k v
  end.

(** Reading a big-endian unsigned integer back. *)
Definition be_decode (bs : list byte) : Z :=
  fold_left (fun acc b => acc * 256 + Z_of_byte b) bs 0.

(** The arguments [struct.pack] receives: strings or integers. *)
Inductive pyval : Type :=
  | VStr (s : list byte)
  | VInt (n : Z).

(** The format codes the script uses: [ns], [B], [H], [I], [Q]. *)
Inductive code : Type :=
  | Cs (n : nat)
  | CB
  | CH
  | CI
  | CQ.

Definition is_digit (c : ascii) : bool :=
  let n := nat_of_ascii c in (48 <=? n)%nat && (n <=? 57)%nat.

Definition digit_val (c : ascii) : nat := (nat_of_ascii c - 48)%nat.

Definition count_or_one (count : option nat) : nat :=
  match count with
  | Some n => n
  | None => 1%nat
  end.

(** The codes of a format string after its byte-order character. A
    repeat count before [s] is the width of one string, before an
    integer code it repeats the code. *)
Fixpoint parse_codes (fmt : string) (count : option nat) : option (list code) :=
  match fmt with
  | EmptyString =>
      match count with
      | None => Some []
      | Some _ => None
      end
  | String c rest =>
      if is_digit c then
        parse_codes rest
          (Some (10 * match count with Some n => n | None => O end + digit_val c)%nat)
      else
        let one :=
          if Ascii.eqb c "s" then Some [Cs (count_or_one count)]
          else if Ascii.eqb c "B" then Some (replicate (count_or_one count) CB)
          else if Ascii.eqb c "H" then Some (replicate (count_or_one count) CH)
          else if Ascii.eqb c "I" then Some (replicate (count_or_one count) CI)
          else if Ascii.eqb c "Q" then Some (replicate (count_or_one count) CQ)
          else None in
        match one, parse_codes rest None with
        | Some cs, Some more => Some (cs ++ more)
        | _, _ => None
        end
  end.

(** Only the big-endian, standard-size mode [>] is modelled. *)
Definition parse_format (fmt : string) : option (list code) :=
  match fmt with
  | String c rest => if Ascii.eqb c ">" then parse_codes rest None else None
  | EmptyString => None
  end.

(** An unsigned integer on [n] bytes; [struct.error] out of range. *)
Definition pack_uint (n : nat) (v : Z) : result (list byte) :=
  if (0 <=? v) && (v <? 2 ^ (8 * Z.of_nat n))
  then Ok (be_bytes n v)
  else Raise StructError.

(** A string on exactly [n] bytes: cut, or filled with null bytes. *)
Definition pack_s (n : nat) (s : list byte) : list byte :=
  take n (s ++ replicate n x00).

Definition pack_one (c : code) (v : pyval) : result (list byte) :=
  match c, v with
  | Cs n, VStr s => Ok (pack_s n s)
  | CB, VInt z => pack_uint 1 z
  | CH, VInt z => pack_uint 2 z
  | CI, VInt z => pack_uint 4 z
  | CQ, VInt z => pack_uint 8 z
  | _, _ => Raise StructError
  end.

Fixpoint pack_codes (cs : list code) (args : list pyval) : result (list byte) :=
  match cs, args with
  | [], [] => Ok []
  | c :: cs', v :: args' =>
      let! b := pack_one c v in
      let! bs := pack_codes cs' args' in
      Ok (b ++ bs)
  | _, _ => Raise StructError
  end.

(** [struct.pack(fmt, *args)]. *)
Definition struct_pack (fmt : string) (args : list pyval) : result (list byte) :=
  match parse_format fmt with
  | Some cs => pack_codes cs args
  | None => Raise StructError
  end.

End Struct.

(** ** The footer: [vhd_footer_checksum] and [vhd_footer] *)

Module Footer.
Import Chs Struct.

(** [sum(bytearray(footer))]. *)
Definition byte_sum (bs : list byte) : Z :=
  fold_right (fun b acc => Z_of_byte b + acc) 0 bs.

Definition vhd_footer_checksum (footer : list byte) : Z :=
  let checksum := byte_sum footer in
  Z.lxor checksum 0xFFFFFFFF.

Definition vhd_footer_format : string := ">8sIIQI4sI4sQQHBBII16sB427s".

(** The list [footer_fields] as [vhd_footer] first builds it, with the
    checksum still 0. The value of [uuid.uuid4().bytes] is the argument
    [unique_id]: the one input the function draws itself. *)
Definition footer_fields (unique_id : list byte) (raw_file_size : Z) : list pyval :=
  let cookie := bytes_of "conectix" in
  let features := 2 in
  let file_format_version := 0x00010000 in
  let data_offset := 0xFFFFFFFFFFFFFFFF in
  let time_stamp := 0 in
  let creator_application := bytes_of "win " in
  let creator_version := 0x00060003 in
  let creator_host_os := bytes_of "Wi2k" in
  let original_size := raw_file_size in
  let current_size := original_size in
  let '(cylinders, heads, sectors_per_track) := vhd_chs current_size in
  let disk_type := 2 in
  let checksum := 0 in
  let saved_state := 0 in
  let reserved := replicate 427 x00 in
  [ VStr cookie;
    VInt features;
    VInt file_format_version;
    VInt data_offset;
    VInt time_stamp;
    VStr creator_application;
    VInt creator_version;
    VStr creator_host_os;
    VInt original_size;
    VInt current_size;
    VInt cylinders;
    VInt heads;
    VInt sectors_per_track;
    VInt disk_type;
    VInt checksum;
    VStr unique_id;
    VInt saved_state;
    VStr reserved ].

(** [vhd_footer(raw_file_size)]: pack, store the checksum of the first
    result at index 14 of the list, pack again. *)
Definition vhd_footer (unique_id : list byte) (raw_file_size : Z) : result (list byte) :=
  let footer_fields := footer_fields unique_id raw_file_size in
  let! footer_tmp := struct_pack vhd_footer_format footer_fields in
  let footer_fields := <[14%nat := VInt (vhd_footer_checksum footer_tmp)]> footer_fields in
  let! footer := struct_pack vhd_footer_format footer_fields in
  Ok footer.

(** *** The footer as the specification describes it

    The record of section 3, field after field, for a given checksum
    and unique id; and the checksum of section 4.2, step 5. Both are
    compared with the code below. *)
Definition spec_fields_before_checksum (imageSize : Z) : list byte :=
  bytes_of "conectix"
  ++ be_bytes 4 2
  ++ be_bytes 4 0x00010000
  ++ be_bytes 8 0xFFFFFFFFFFFFFFFF
  ++ be_bytes 4 0
  ++ bytes_of "win "
  ++ be_bytes 4 0x00060003
  ++ bytes_of "Wi2k"
  ++ be_bytes 8 imageSize
  ++ be_bytes 8 imageSize
  ++ be_bytes 2 (chs_cylinders imageSize)
  ++ be_bytes 1 (chs_heads imageSize)
  ++ be_bytes 1 (chs_sectors_per_track imageSize)
  ++ be_bytes 4 2.

Definition spec_fields_after_unique_id : list byte :=
  be_bytes 1 0 ++ replicate 427 x00.

Definition spec_footer_layout (imageSize checksum : Z) (unique_id : list byte) : list byte :=
  spec_fields_before_checksum imageSize
  ++ be_bytes 4 checksum
  ++ unique_id
  ++ spec_fields_after_unique_id.

Definition spec_checksum (record : list byte) : Z :=
  Z.lnot (byte_sum record) mod 2 ^ 32.

(** The checksum field of a footer, its bytes set to zero, and as the
    number it stores. *)
Definition zero_checksum_field (footer : list byte) : list byte :=
  take 64 footer ++ replicate 4 x00 ++ drop 68 footer.

Definition stored_checksum (footer : list byte) : Z :=
  be_decode (take 4 (drop 64 footer)).

End Footer.

(** ** The conversion: [convert] *)

Module Convert.
Import Struct Footer.

(** The file system is a finite map from paths to file contents. It has
    no directories and no permissions: a file can always be opened for
    writing, and a file that exists can always be read. Every path
    stands for a file of its own; the module [Posix] below drops both
    assumptions, and agrees with this one where they hold. *)
Abbreviation filesystem := (gmap string (list byte)).

(** File operations run in a state monad over the file system that can
    raise; an exception leaves the file system as it was when raised. *)
Definition io (A : Type) : Type := filesystem -> result A * filesystem.

Definition io_ret {A : Type} (a : A) : io A := fun fs => (Ok a, fs).

Definition io_raise {A : Type} (e : exn) : io A := fun fs => (Raise e, fs).

Definition io_bind {A B : Type} (m : io A) (k : A -> io B) : io B :=
  fun fs =>
    match m fs with
    | (Ok a, fs') => k a fs'
    | (Raise e, fs') => (Raise e, fs')
    end.

Notation "'let*' x ':=' m 'in' k" := (io_bind m (fun x => k))
  (at level 10, x name, m at level 100, k at level 200).

(** A pure computation that may raise, run inside [io]. *)
Definition io_lift {A : Type} (r : result A) : io A := fun fs => (r, fs).

(** [os.path.getsize(path)]. *)
Definition getsize (path : string) : io Z :=
  fun fs =>
    match fs !! path with
    | Some data => (Ok (Z.of_nat (length data)), fs)
    | None => (Raise OSError, fs)
    end.

(** [open(path, 'wb')]: the file is created, or cut to length zero. *)
Definition open_wb (path : string) : io unit :=
  fun fs => (Ok tt, <[path := []]> fs).

(** [open(path, 'rb')] and reading the file to its end. *)
Definition read_all (path : string) : io (list byte) :=
  fun fs =>
    match fs !! path with
    | Some data => (Ok data, fs)
    | None => (Raise IOError, fs)
    end.

(** Writing to a file opened by [open_wb]: the bytes go to its end. *)
Definition write (path : string) (data : list byte) : io unit :=
  fun fs => (Ok tt, <[path := default [] (fs !! path) ++ data]> fs).

(** [shutil.copyfileobj(raw, vhd)] on two open files. *)
Definition copyfileobj (raw vhd : string) : io unit :=
  let* data := read_all raw in
  write vhd data.

(** [convert(raw_file, vhd_file)]; [unique_id] is the identifier that
    [vhd_footer] draws. Both [with] blocks only close their file. *)
Definition convert (unique_id : list byte) (raw_file vhd_file : string) : io unit :=
  let* raw_file_size := getsize raw_file in
  if negb (raw_file_size mod (1024 * 1024) =? 0) then
    io_raise (Exception "RAW image size is not aligned to 1 MB")
  else
    let* _ := open_wb vhd_file in
    let* _ := copyfileobj raw_file vhd_file in
    let* footer := io_lift (vhd_footer unique_id raw_file_size) in
    write vhd_file footer.

(** A file of [n] null bytes, the input of the examples below. *)
Definition zeros (n : Z) : list byte := replicate (Z.to_nat n) x00.

End Convert.

(** ** The conversion on named files, with input and output faults

    The file system above takes a path for the file itself and lets
    every operation succeed. Here a path is resolved to a location,
    the directory entry it denotes: another spelling of a path, or a
    symbolic link and its target, resolve to one location. A location
    that holds a file is bound to an inode, and hard links bind several
    locations to one inode. The content belongs to the inode. What the
    environment does to the run, a failing [open], read or write, is an
    input of the run, as the unique id is. *)

Module Posix.
Import Struct Footer.

Record fsys : Type := mkFsys {
  entries : gmap string N;
  contents : gmap N (list byte)
}.

(** The bytes of an inode; an inode never written to is empty. *)
Definition content (fs : fsys) (i : N) : list byte :=
  default [] (contents fs !! i).

Definition set_content (i : N) (data : list byte) (fs : fsys) : fsys :=
  mkFsys (entries fs) (<[i := data]> (contents fs)).

(** The first file operation of the run that fails, if any: reading
    the size of the input raises [OSError], the others [IOError]. A
    write that fails, or whose file fails to close, leaves the first
    [written] bytes in the file. *)
Inductive fault : Type :=
  | NoFault
  | StatFails
  | OpenOutputFails
  | OpenInputFails
  | CopyFails (written : nat)
  | FooterWriteFails (written : nat).

Definition io (A : Type) : Type := fsys -> result A * fsys.

Definition io_raise {A : Type} (e : exn) : io A := fun fs => (Raise e, fs).

Definition io_bind {A B : Type} (m : io A) (k : A -> io B) : io B :=
  fun fs =>
    match m fs with
    | (Ok a, fs') => k a fs'
    | (Raise e, fs') => (Raise e, fs')
    end.

Notation "'let*' x ':=' m 'in' k" := (io_bind m (fun x => k))
  (at level 10, x name, m at level 100, k at level 200).

Definition io_lift {A : Type} (r : result A) : io A := fun fs => (r, fs).

Section Run.
Variable resolve : string -> string.
Variable flt : fault.

(** What a reader of [path] finds: the bytes of the file it denotes. *)
Definition read_path (fs : fsys) (path : string) : option (list byte) :=
  match entries fs !! resolve path with
  | Some i => Some (content fs i)
  | None => None
  end.

(** [os.path.getsize(path)]. *)
Definition getsize (path : string) : io Z :=
  fun fs =>
    match flt with
    | StatFails => (Raise OSError, fs)
    | _ =>
        match entries fs !! resolve path with
        | Some i => (Ok (Z.of_nat (length (content fs i))), fs)
        | None => (Raise OSError, fs)
        end
    end.

(** The inode [open(path, 'wb')] opens: the one of the file the path
    denotes, or one not in use when the path denotes no file yet. *)
Definition output_inode (fs : fsys) (path : string) : N :=
  match entries fs !! resolve path with
  | Some i => i
  | None => fresh (dom (contents fs) ∪ map_img (entries fs))
  end.

(** The location of [path] bound to the inode [i], which holds [data]. *)
Definition store (path : string) (i : N) (data : list byte) (fs : fsys) : fsys :=
  mkFsys (<[resolve path := i]> (entries fs)) (<[i := data]> (contents fs)).

(** [open(path, 'wb')]: the file the path denotes is cut to length
    zero, or an empty file is created at its location. The inode
    stands for the open file. *)
Definition open_wb (path : string) : io N :=
  fun fs =>
    match flt with
    | OpenOutputFails => (Raise IOError, fs)
    | _ =>
        let i := output_inode fs path in
        (Ok i, store path i [] fs)
    end.

(** [open(path, 'rb')]. *)
Definition open_rb (path : string) : io N :=
  fun fs =>
    match flt with
    | OpenInputFails => (Raise IOError, fs)
    | _ =>
        match entries fs !! resolve path with
        | Some i => (Ok i, fs)
        | None => (Raise IOError, fs)
        end
    end.

(** Writing to an open file: the bytes go to its end. *)
Definition write (i : N) (data : list byte) : io unit :=
  fun fs => (Ok tt, set_content i (content fs i ++ data) fs).

(** A write that raises after [written] bytes. *)
Definition write_failing (i : N) (data : list byte) (written : nat) : io unit :=
  fun fs => (Raise IOError, set_content i (content fs i ++ take written data) fs).

(** [shutil.copyfileobj(raw, vhd)] on two open files: what the input
    holds when the copy starts goes to the end of the output. *)
Definition copyfileobj (raw vhd : N) : io unit :=
  fun fs =>
    let data := content fs raw in
    match flt with
    | CopyFails written => write_failing vhd data written fs
    | _ => write vhd data fs
    end.

(** [vhd.write(footer)]. *)
Definition write_footer (vhd : N) (footer : list byte) : io unit :=
  match flt with
  | FooterWriteFails written => write_failing vhd footer written
  | _ => write vhd footer
  end.

(** [convert(raw_file, vhd_file)]. *)
Definition convert (unique_id : list byte) (raw_file vhd_file : string) : io unit :=
  let* raw_file_size := getsize raw_file in
  if negb (raw_file_size mod (1024 * 1024) =? 0) then
    io_raise (Exception "RAW image size is not aligned to 1 MB")
  else
    let* vhd := open_wb vhd_file in
    let* raw := open_rb raw_file in
    let* _ := copyfileobj raw vhd in
    let* footer := io_lift (vhd_footer unique_id raw_file_size) in
    write_footer vhd footer.

End Run.

(** A resolution for the examples below: a leading [./] is dropped. *)
Definition strip_dot (path : string) : string :=
  match path with
  | String "." (String "/" rest) => rest
  | _ => path
  end.

(** The file system of the first model as one of this model: every
    path is its own location and has an inode of its own. *)
Definition view (fs : fsys) : gmap string (list byte) :=
  content fs <$> entries fs.

End Posix.

(** * Properties *)

Import Chs Struct Footer Convert.

(** ** Geometry *)

Lemma shiftl_10 (h : Z) : Z.shiftl h 10 = h * 1024.
Proof. rewrite Z.shiftl_mul_pow2 by lia. reflexivity. Qed.

Lemma shiftr_10 (a : Z) : Z.shiftr a 10 = a / 1024.
Proof. rewrite Z.shiftr_div_pow2 by lia. reflexivity. Qed.

(** Case analysis on every conditional of the goal. *)
Ltac split_ifs :=
  cbv beta iota zeta;
  repeat (match goal with
          | |- context [if ?b then _ else _] => destruct b eqn:?
          end; cbv beta iota zeta).

(** Boolean comparisons in the context become propositions. *)
Ltac bool_to_Z :=
  repeat match goal with
  | H : (_ || _) = true |- _ => apply orb_true_iff in H
  | H : (_ || _) = false |- _ => apply orb_false_iff in H; destruct H
  | H : (_ >? _) = _ |- _ => rewrite Z.gtb_ltb in H
  | H : (_ >=? _) = _ |- _ => rewrite Z.geb_leb in H
  | H : (_ <? _) = true |- _ => apply Z.ltb_lt in H
  | H : (_ <? _) = false |- _ => apply Z.ltb_ge in H
  | H : (_ <=? _) = true |- _ => apply Z.leb_le in H
  | H : (_ <=? _) = false |- _ => apply Z.leb_gt in H
  | H : context [Z.shiftl _ 10] |- _ => rewrite shiftl_10 in H
  end.

Lemma clamp_min (s0 m : Z) : (if s0 >? m then m else s0) = Z.min s0 m.
Proof. rewrite Z.gtb_ltb. destruct (Z.ltb_spec m s0); lia. Qed.

Lemma floor_max (h lo : Z) : (if h <? lo then lo else h) = Z.max lo h.
Proof. destruct (Z.ltb_spec h lo); lia. Qed.

(** The code and the procedure of section 4.1 agree on every integer. *)
Lemma vhd_chs_spec (size : Z) :
  vhd_chs size =
  let g := spec_computeGeometry size in
  (cylinders g, heads g, sectorsPerTrack g).
Proof.
  unfold vhd_chs, spec_computeGeometry, spec_small_branch.
  cbv zeta. rewrite clamp_min, floor_max.
  set (s := Z.min (size / 512) (65535 * 16 * 255)).
  set (h := Z.max 4 (Z.shiftr (s / 17 + 1023) 10)).
  split_ifs.
  all: bool_to_Z.
  all: try (exfalso; lia).
  all: reflexivity.
Qed.

(** C1: for every non-negative image size, [vhd_chs] returns what the
    decision procedure of section 4.1 returns: floor division by 512,
    the clamp at 65535*16*255, the 255/16 branch from 65535*16*63 on,
    otherwise the start at 17 sectors per track with heads
    [(cylinderTimesHeads + 1023) >> 10] floored at 4, the switches to 31
    and then 63 sectors per track, and the final floor division. *)
Theorem vhd_chs_follows_procedure (imageSizeBytes : Z) :
  0 <= imageSizeBytes ->
  vhd_chs imageSizeBytes =
  (cylinders (spec_computeGeometry imageSizeBytes),
   heads (spec_computeGeometry imageSizeBytes),
   sectorsPerTrack (spec_computeGeometry imageSizeBytes)).
Proof. intros _. apply vhd_chs_spec. Qed.

Lemma vhd_chs_follows_procedure_witness :
  0 <= 1048576 /\
  vhd_chs 1048576 =
  (cylinders (spec_computeGeometry 1048576),
   heads (spec_computeGeometry 1048576),
   sectorsPerTrack (spec_computeGeometry 1048576)).
Proof. split; [lia | apply (vhd_chs_follows_procedure 1048576); lia]. Defined.

(** The known vector of section 8 as the specification gives it: 63
    sectors per track at 512*65535*16*63 bytes. The code does not
    return it. *)
Lemma vhd_chs_threshold_not_63 :
  ~ (chs_sectors_per_track (512 * 65535 * 16 * 63) = 63
     /\ chs_heads (512 * 65535 * 16 * 63) = 16).
Proof. intros [H _]. vm_compute in H. discriminate H. Qed.

(** C2, amended: at 512*65535*16*63 bytes the sector count reaches the
    threshold 65535*16*63, so the 255/16 branch is taken:
    sectorsPerTrack = 255 and heads = 16 (and 16191 cylinders). *)
Theorem vhd_chs_threshold_255 :
  vhd_chs (512 * 65535 * 16 * 63) = (16191, 16, 255)
  /\ chs_sectors_per_track (512 * 65535 * 16 * 63) = 255
  /\ chs_heads (512 * 65535 * 16 * 63) = 16.
Proof. repeat split. Qed.

Lemma volume_le (size s spt h : Z) :
  0 < spt -> 0 < h -> s <= size / 512 ->
  s / spt / h * h * spt * 512 <= size.
Proof.
  intros Hspt Hh Hs.
  pose proof (Z.mul_div_le (s / spt) h Hh).
  pose proof (Z.mul_div_le s spt Hspt).
  pose proof (Z.mul_div_le size 512 ltac:(lia)).
  nia.
Qed.

(** Bounds on the triple for every integer size; the cylinders are
    non-negative when the size is. *)
Lemma vhd_chs_bounds_all (size : Z) :
  let '(c, h, s) := vhd_chs size in
  c <= 65535 /\ (0 <= size -> 0 <= c) /\ 4 <= h <= 16 /\
  (s = 17 \/ s = 31 \/ s = 63 \/ s = 255) /\
  c * h * s * 512 <= size.
Proof.
  unfold vhd_chs. cbv zeta. rewrite clamp_min, floor_max, shiftr_10.
  assert (Hs : Z.min (size / 512) (65535 * 16 * 255) <= size / 512) by lia.
  assert (Hm : Z.min (size / 512) (65535 * 16 * 255) <= 65535 * 16 * 255) by lia.
  assert (Hp : 0 <= size -> 0 <= Z.min (size / 512) (65535 * 16 * 255)).
  { intros. pose proof (Z.div_pos size 512). lia. }
  revert Hs Hm Hp.
  generalize (Z.min (size / 512) (65535 * 16 * 255)). intros s Hs Hm Hp.
  set (h := Z.max 4 ((s / 17 + 1023) / 1024)).
  assert (Hh : 4 <= h) by lia.
  split_ifs; bool_to_Z.
  all: repeat split; try lia; auto.
  all: try (apply volume_le; lia).
  all: try (intros; apply Z.div_pos; [apply Z.div_pos |]; lia).
  all: try (apply Z.div_le_upper_bound; [lia |]; apply Z.div_le_upper_bound; lia).
  all: try (apply Z.lt_le_incl, Z.div_lt_upper_bound; [lia |];
            apply Z.div_lt_upper_bound; lia).
  all: try (apply Z.lt_le_incl, Z.div_lt_upper_bound; lia).
Qed.

(** C3: for every size that is a multiple of 512, the triple has at most
    65535 cylinders, between 4 and 16 heads, 17, 31, 63 or 255 sectors
    per track, and describes at most [size] bytes. *)
Theorem vhd_chs_bounds (size : Z) :
  size mod 512 = 0 ->
  chs_cylinders size <= 65535
  /\ 4 <= chs_heads size <= 16
  /\ (chs_sectors_per_track size = 17 \/ chs_sectors_per_track size = 31
      \/ chs_sectors_per_track size = 63 \/ chs_sectors_per_track size = 255)
  /\ chs_cylinders size * chs_heads size * chs_sectors_per_track size * 512 <= size.
Proof.
  intros _. unfold chs_cylinders, chs_heads, chs_sectors_per_track.
  pose proof (vhd_chs_bounds_all size) as H.
  destruct (vhd_chs size) as [[c h] s]. simpl. tauto.
Qed.

Lemma vhd_chs_bounds_witness :
  (2 * 1048576) mod 512 = 0
  /\ chs_cylinders (2 * 1048576) <= 65535
  /\ 4 <= chs_heads (2 * 1048576) <= 16
  /\ (chs_sectors_per_track (2 * 1048576) = 17
      \/ chs_sectors_per_track (2 * 1048576) = 31
      \/ chs_sectors_per_track (2 * 1048576) = 63
      \/ chs_sectors_per_track (2 * 1048576) = 255)
  /\ chs_cylinders (2 * 1048576) * chs_heads (2 * 1048576)
     * chs_sectors_per_track (2 * 1048576) * 512 <= 2 * 1048576.
Proof. split; [reflexivity | apply (vhd_chs_bounds (2 * 1048576)); reflexivity]. Defined.

(** C10: the sectors per track are not monotone in the size. At 34 MB
    the sector count 69632 divided by 17 is 4096, an exact multiple of
    1024, which switches to 31 sectors per track: (140, 16, 31). At the
    larger 35 MB the triple is (843, 5, 17). *)
Theorem vhd_chs_sectors_per_track_not_monotone :
  vhd_chs (34 * 1048576) = (140, 16, 31)
  /\ 34 * 1048576 / 512 = 69632
  /\ 69632 / 17 = 4096
  /\ 4096 mod 1024 = 0
  /\ vhd_chs (35 * 1048576) = (843, 5, 17)
  /\ 34 * 1048576 < 35 * 1048576
  /\ chs_sectors_per_track (35 * 1048576) < chs_sectors_per_track (34 * 1048576)
  /\ ~ (forall a b : Z, 0 <= a <= b ->
          chs_sectors_per_track a <= chs_sectors_per_track b).
Proof.
  repeat split.
  intros Hmono.
  specialize (Hmono (34 * 1048576) (35 * 1048576) ltac:(lia)).
  vm_compute in Hmono. apply Hmono. reflexivity.
Qed.

(** ** Bytes, big-endian integers and the checksum *)

Lemma Z_of_byte_range (b : byte) : 0 <= Z_of_byte b <= 255.
Proof.
  unfold Z_of_byte. pose proof (Byte.to_N_bounded b). lia.
Qed.

Lemma Z_of_byte_of_Z (z : Z) : Z_of_byte (byte_of_Z z) = z mod 256.
Proof.
  unfold Z_of_byte, byte_of_Z.
  pose proof (Z.mod_pos_bound z 256 ltac:(lia)) as Hr.
  pose proof (Byte.to_of_N_option_map (Z.to_N (z mod 256))) as Hm.
  destruct (Byte.of_N (Z.to_N (z mod 256))) as [b |] eqn:Hb.
  - apply Byte.to_of_N in Hb. rewrite Hb. lia.
  - simpl in Hm. destruct (N.leb_spec (Z.to_N (z mod 256)) 255); [discriminate | lia].
Qed.

Lemma length_be_bytes (n : nat) (v : Z) : length (be_bytes n v) = n.
Proof. induction n as [| k IH]; simpl; congruence. Qed.

Lemma be_decode_from (n : nat) (v acc : Z) :
  fold_left (fun a b => a * 256 + Z_of_byte b) (be_bytes n v) acc
  = acc * 2 ^ (8 * Z.of_nat n) + v mod 2 ^ (8 * Z.of_nat n).
Proof.
  revert acc. induction n as [| k IH]; intros acc.
  - simpl. rewrite Z.mod_1_r. lia.
  - cbn [be_bytes fold_left]. rewrite IH, Z_of_byte_of_Z.
    rewrite Z.shiftr_div_pow2 by lia.
    replace (8 * Z.of_nat (S k)) with (8 * Z.of_nat k + 8) by lia.
    rewrite Z.pow_add_r by lia.
    change (2 ^ 8) with 256.
    rewrite (Z.rem_mul_r v (2 ^ (8 * Z.of_nat k)) 256) by lia.
    ring.
Qed.

Lemma be_decode_be_bytes (n : nat) (v : Z) :
  0 <= v < 2 ^ (8 * Z.of_nat n) -> be_decode (be_bytes n v) = v.
Proof.
  intros Hv. unfold be_decode. rewrite be_decode_from.
  rewrite Z.mod_small by lia. lia.
Qed.

Lemma byte_sum_app (a b : list byte) : byte_sum (a ++ b) = byte_sum a + byte_sum b.
Proof. induction a as [| x a IH]; simpl; [reflexivity | rewrite IH; lia]. Qed.

Lemma byte_sum_range (bs : list byte) : 0 <= byte_sum bs <= 255 * Z.of_nat (length bs).
Proof.
  induction bs as [| b bs IH]; simpl length; simpl byte_sum; [lia |].
  pose proof (Z_of_byte_range b). lia.
Qed.

Lemma byte_sum_zeros (n : nat) : byte_sum (replicate n x00) = 0.
Proof. induction n as [| k IH]; simpl; [reflexivity | exact IH]. Qed.

Lemma lnot_mod_32 (s : Z) : 0 <= s < 2 ^ 32 -> Z.lnot s mod 2 ^ 32 = 2 ^ 32 - 1 - s.
Proof.
  intros Hs. unfold Z.lnot, Z.pred.
  replace (- s + -1) with (2 ^ 32 - 1 - s + (-1) * 2 ^ 32) by lia.
  rewrite Z.mod_add by lia. apply Z.mod_small. lia.
Qed.

Lemma lxor_ones_32 (s : Z) : 0 <= s < 2 ^ 32 -> Z.lxor s 0xFFFFFFFF = 2 ^ 32 - 1 - s.
Proof.
  intros Hs. rewrite <- lnot_mod_32 by exact Hs.
  change 0xFFFFFFFF with (Z.ones 32).
  rewrite <- Z.land_ones by lia.
  apply Z.bits_inj'. intros n Hn.
  rewrite Z.lxor_spec, Z.land_spec, Z.lnot_spec by exact Hn.
  destruct (Z.lt_ge_cases n 32) as [Hlt | Hge].
  - rewrite Z.ones_spec_low by lia. destruct (Z.testbit s n); reflexivity.
  - rewrite Z.ones_spec_high by lia.
    assert (Z.testbit s n = false) as ->.
    { destruct (Z.eq_dec s 0) as [-> | Hnz]; [apply Z.bits_0 |].
      apply Z.bits_above_log2; [lia |].
      apply Z.log2_lt_pow2; [lia |].
      apply Z.lt_le_trans with (2 ^ 32); [lia |].
      apply Z.pow_le_mono_r; lia. }
    reflexivity.
Qed.

Lemma checksum_is_complement (bs : list byte) :
  Z.of_nat (length bs) <= 512 ->
  vhd_footer_checksum bs = spec_checksum bs
  /\ 0 <= vhd_footer_checksum bs < 2 ^ 32.
Proof.
  intros Hlen. unfold vhd_footer_checksum, spec_checksum. cbv zeta.
  pose proof (byte_sum_range bs) as Hr.
  assert (Hs : 0 <= byte_sum bs < 2 ^ 32) by lia.
  rewrite lnot_mod_32, lxor_ones_32 by exact Hs. lia.
Qed.

(** ** Packing the footer fields *)

Lemma pack_uint_ok (n : nat) (v : Z) :
  0 <= v < 2 ^ (8 * Z.of_nat n) -> pack_uint n v = Ok (be_bytes n v).
Proof.
  intros [Hlo Hhi]. unfold pack_uint.
  apply Z.leb_le in Hlo. apply Z.ltb_lt in Hhi. rewrite Hlo, Hhi. reflexivity.
Qed.

Lemma pack_uint_error (n : nat) (v : Z) :
  ~ 0 <= v < 2 ^ (8 * Z.of_nat n) -> pack_uint n v = Raise StructError.
Proof.
  intros Hv. unfold pack_uint.
  destruct (Z.leb_spec 0 v); [| reflexivity].
  destruct (Z.ltb_spec v (2 ^ (8 * Z.of_nat n))); [lia | reflexivity].
Qed.

Lemma length_pack_s (n : nat) (s : list byte) : length (pack_s n s) = n.
Proof.
  unfold pack_s. rewrite length_take, length_app, length_replicate. lia.
Qed.

Lemma pack_s_exact (n : nat) (s : list byte) : length s = n -> pack_s n s = s.
Proof.
  intros Hn. unfold pack_s. rewrite take_app_length'; [reflexivity | symmetry; exact Hn].
Qed.

Lemma footer_format_codes :
  parse_format vhd_footer_format =
  Some [Cs 8; CI; CI; CQ; CI; Cs 4; CI; Cs 4; CQ; CQ; CH; CB; CB; CI; CI;
        Cs 16; CB; Cs 427].
Proof. reflexivity. Qed.

Lemma chs_fields (size : Z) :
  vhd_chs size = (chs_cylinders size, chs_heads size, chs_sectors_per_track size).
Proof.
  unfold chs_cylinders, chs_heads, chs_sectors_per_track.
  destruct (vhd_chs size) as [[c h] s]. reflexivity.
Qed.

Lemma chs_fields_fit (size : Z) :
  0 <= size ->
  0 <= chs_cylinders size < 2 ^ 16
  /\ 0 <= chs_heads size < 2 ^ 8
  /\ 0 <= chs_sectors_per_track size < 2 ^ 8.
Proof.
  intros Hsize. pose proof (vhd_chs_bounds_all size) as H.
  rewrite chs_fields in H. lia.
Qed.

(** The fields of [footer_fields] with another checksum at index 14. *)
Lemma footer_fields_insert (unique_id : list byte) (size ck : Z) :
  <[14%nat := VInt ck]> (footer_fields unique_id size) =
  [ VStr (bytes_of "conectix"); VInt 2; VInt 0x00010000;
    VInt 0xFFFFFFFFFFFFFFFF; VInt 0; VStr (bytes_of "win ");
    VInt 0x00060003; VStr (bytes_of "Wi2k"); VInt size; VInt size;
    VInt (chs_cylinders size); VInt (chs_heads size);
    VInt (chs_sectors_per_track size); VInt 2; VInt ck;
    VStr unique_id; VInt 0; VStr (replicate 427 x00) ].
Proof.
  unfold footer_fields. cbv zeta. rewrite chs_fields. reflexivity.
Qed.

Lemma footer_fields_checksum_0 (unique_id : list byte) (size : Z) :
  footer_fields unique_id size = <[14%nat := VInt 0]> (footer_fields unique_id size).
Proof.
  unfold footer_fields. cbv zeta. rewrite chs_fields. reflexivity.
Qed.

Ltac pack_step :=
  match goal with
  | |- context [pack_uint ?n ?v] =>
      rewrite (pack_uint_ok n v) by (cbn; lia); cbn [bind]
  end.

Lemma pack_footer_fields (unique_id : list byte) (size ck : Z) :
  0 <= size < 2 ^ 64 -> 0 <= ck < 2 ^ 32 ->
  struct_pack vhd_footer_format (<[14%nat := VInt ck]> (footer_fields unique_id size))
  = Ok (spec_footer_layout size ck (pack_s 16 unique_id)).
Proof.
  intros Hsize Hck.
  pose proof (chs_fields_fit size ltac:(lia)) as (Hc & Hh & Hs).
  rewrite footer_fields_insert. unfold struct_pack.
  rewrite footer_format_codes.
  cbn [pack_codes pack_one bind].
  repeat pack_step.
  unfold spec_footer_layout, spec_fields_before_checksum, spec_fields_after_unique_id.
  rewrite (pack_s_exact 427) by apply length_replicate.
  rewrite (pack_s_exact 8 (bytes_of "conectix")) by reflexivity.
  rewrite !(pack_s_exact 4) by reflexivity.
  rewrite app_nil_r, <- !app_assoc.
  reflexivity.
Qed.

Lemma length_before_checksum (size : Z) :
  length (spec_fields_before_checksum size) = 64%nat.
Proof.
  unfold spec_fields_before_checksum.
  rewrite !length_app, !length_be_bytes. reflexivity.
Qed.

Lemma length_after_unique_id : length spec_fields_after_unique_id = 428%nat.
Proof.
  unfold spec_fields_after_unique_id.
  rewrite length_app, length_be_bytes, length_replicate. reflexivity.
Qed.

Lemma length_spec_footer_layout (size ck : Z) (u : list byte) :
  length (spec_footer_layout size ck u) = (496 + length u)%nat.
Proof.
  unfold spec_footer_layout.
  rewrite !length_app, length_before_checksum, length_be_bytes, length_after_unique_id.
  lia.
Qed.

Lemma take_64_layout (size ck : Z) (u : list byte) :
  take 64 (spec_footer_layout size ck u) = spec_fields_before_checksum size.
Proof.
  unfold spec_footer_layout. apply take_app_length'.
  symmetry. apply length_before_checksum.
Qed.

Lemma drop_64_layout (size ck : Z) (u : list byte) :
  drop 64 (spec_footer_layout size ck u)
  = be_bytes 4 ck ++ u ++ spec_fields_after_unique_id.
Proof.
  unfold spec_footer_layout. apply drop_app_length'.
  symmetry. apply length_before_checksum.
Qed.

Lemma drop_68_layout (size ck : Z) (u : list byte) :
  drop 68 (spec_footer_layout size ck u) = u ++ spec_fields_after_unique_id.
Proof.
  change 68%nat with (64 + 4)%nat. rewrite <- drop_drop, drop_64_layout.
  apply drop_app_length'. symmetry. apply length_be_bytes.
Qed.

Lemma drop_84_layout (size ck : Z) (u : list byte) :
  length u = 16%nat ->
  drop 84 (spec_footer_layout size ck u) = spec_fields_after_unique_id.
Proof.
  intros Hu. change 84%nat with (68 + 16)%nat.
  rewrite <- drop_drop, drop_68_layout.
  apply drop_app_length'. symmetry. exact Hu.
Qed.

Lemma zero_checksum_layout (size ck : Z) (u : list byte) :
  zero_checksum_field (spec_footer_layout size ck u) = spec_footer_layout size 0 u.
Proof.
  unfold zero_checksum_field. rewrite take_64_layout, drop_68_layout. reflexivity.
Qed.

Lemma stored_checksum_layout (size ck : Z) (u : list byte) :
  0 <= ck < 2 ^ 32 -> stored_checksum (spec_footer_layout size ck u) = ck.
Proof.
  intros Hck. unfold stored_checksum. rewrite drop_64_layout.
  rewrite take_app_length' by (symmetry; apply length_be_bytes).
  apply be_decode_be_bytes. exact Hck.
Qed.

Section FooterOfSize.
Variable unique_id : list byte.
Variable raw_file_size : Z.

(** The unique id as it lies in the record, and the two packings. *)
Let id16 := pack_s 16 unique_id.
Let footer_tmp := spec_footer_layout raw_file_size 0 id16.
Let checksum := vhd_footer_checksum footer_tmp.

Lemma length_footer_tmp : length footer_tmp = 512%nat.
Proof.
  unfold footer_tmp, id16. rewrite length_spec_footer_layout, length_pack_s.
  reflexivity.
Qed.

Lemma footer_checksum_range : 0 <= checksum < 2 ^ 32.
Proof.
  apply checksum_is_complement. rewrite length_footer_tmp. lia.
Qed.

Lemma vhd_footer_ok :
  0 <= raw_file_size < 2 ^ 64 ->
  vhd_footer unique_id raw_file_size
  = Ok (spec_footer_layout raw_file_size checksum id16).
Proof.
  intros Hsize. unfold vhd_footer. cbv zeta.
  rewrite (footer_fields_checksum_0 unique_id raw_file_size) at 1.
  rewrite pack_footer_fields by (try exact Hsize; lia).
  cbn [bind]. fold id16. fold footer_tmp. fold checksum.
  rewrite pack_footer_fields by (try exact Hsize; apply footer_checksum_range).
  reflexivity.
Qed.

Lemma vhd_footer_error :
  ~ 0 <= raw_file_size < 2 ^ 64 ->
  vhd_footer unique_id raw_file_size = Raise StructError.
Proof.
  intros Hsize. unfold vhd_footer. cbv zeta.
  rewrite (footer_fields_checksum_0 unique_id raw_file_size).
  rewrite footer_fields_insert. unfold struct_pack.
  rewrite footer_format_codes.
  cbn [pack_codes pack_one bind].
  repeat pack_step.
  rewrite (pack_uint_error 8 raw_file_size) by exact Hsize.
  reflexivity.
Qed.
End FooterOfSize.

(** ** Running [convert] *)

Section ConvertRun.
Variable unique_id : list byte.
Variables raw_file vhd_file : string.
Variable fs : gmap string (list byte).
Variable data : list byte.
Hypothesis Hraw : fs !! raw_file = Some data.

Lemma convert_misaligned :
  Z.of_nat (length data) mod (1024 * 1024) <> 0 ->
  convert unique_id raw_file vhd_file fs
  = (Raise (Exception "RAW image size is not aligned to 1 MB"), fs).
Proof.
  intros Hmod. unfold convert, io_bind, getsize. rewrite Hraw.
  apply Z.eqb_neq in Hmod. rewrite Hmod. reflexivity.
Qed.

(** What [copyfileobj] finds in the input once the output is open. *)
Lemma convert_aligned :
  Z.of_nat (length data) mod (1024 * 1024) = 0 ->
  let body := if decide (raw_file = vhd_file) then [] else data in
  convert unique_id raw_file vhd_file fs
  = match vhd_footer unique_id (Z.of_nat (length data)) with
    | Ok footer => (Ok tt, <[vhd_file := body ++ footer]> fs)
    | Raise e => (Raise e, <[vhd_file := body]> fs)
    end.
Proof.
  intros Hmod body. unfold convert, io_bind, getsize. rewrite Hraw.
  apply Z.eqb_eq in Hmod. rewrite Hmod. cbn [negb].
  unfold open_wb, copyfileobj, io_bind, read_all, write, io_lift.
  assert (Hread : <[vhd_file := []]> fs !! raw_file = Some body).
  { unfold body. rewrite lookup_insert.
    destruct (decide (vhd_file = raw_file)) as [-> | Hne].
    - rewrite decide_True by reflexivity. reflexivity.
    - rewrite decide_False by congruence. exact Hraw. }
  rewrite Hread.
  destruct (vhd_footer unique_id (Z.of_nat (length data))) as [footer | e].
  all: repeat (rewrite ?lookup_insert_eq, ?insert_insert_eq; cbn [default app]).
  all: reflexivity.
Qed.
End ConvertRun.

Lemma convert_missing (unique_id : list byte) (raw_file vhd_file : string)
    (fs : gmap string (list byte)) :
  fs !! raw_file = None ->
  convert unique_id raw_file vhd_file fs = (Raise OSError, fs).
Proof.
  intros Hraw. unfold convert, io_bind, getsize. rewrite Hraw. reflexivity.
Qed.

Lemma vhd_footer_cases (unique_id : list byte) (size : Z) :
  (0 <= size < 2 ^ 64
   /\ vhd_footer unique_id size
      = Ok (spec_footer_layout size
              (vhd_footer_checksum (spec_footer_layout size 0 (pack_s 16 unique_id)))
              (pack_s 16 unique_id)))
  \/ (~ 0 <= size < 2 ^ 64 /\ vhd_footer unique_id size = Raise StructError).
Proof.
  destruct (decide (0 <= size < 2 ^ 64)) as [Hin | Hout].
  - left. split; [exact Hin |]. apply vhd_footer_ok. exact Hin.
  - right. split; [exact Hout |]. apply vhd_footer_error. exact Hout.
Qed.

(** ** The footer record *)

(** The claim of section 8 as the specification gives it, a footer of
    512 bytes for every image size, fails at 2^64: the size no longer
    fits its 8-byte field and [struct.pack] raises. *)
Lemma vhd_footer_rejects_2_pow_64 :
  ~ exists footer : list byte,
      vhd_footer (replicate 16 x00) (2 ^ 64) = Ok footer
      /\ length footer = 512%nat.
Proof.
  intros [footer [H _]].
  rewrite vhd_footer_error in H by lia. discriminate H.
Qed.

(** C4, amended: for every image size from 0 up to 2^64 - 1 and every
    16-byte unique id, [vhd_footer] returns the record of section 3,
    field after field, big-endian, with the fixed values of the table,
    both sizes equal to the image size, the geometry of [vhd_chs], and
    the checksum of the record packed with a zero checksum; the record
    is 512 bytes long. *)
Theorem vhd_footer_layout (unique_id : list byte) (imageSizeBytes : Z) :
  0 <= imageSizeBytes < 2 ^ 64 ->
  length unique_id = 16%nat ->
  vhd_footer unique_id imageSizeBytes
  = Ok (spec_footer_layout imageSizeBytes
          (vhd_footer_checksum (spec_footer_layout imageSizeBytes 0 unique_id))
          unique_id)
  /\ length (spec_footer_layout imageSizeBytes
               (vhd_footer_checksum (spec_footer_layout imageSizeBytes 0 unique_id))
               unique_id) = 512%nat.
Proof.
  intros Hsize Hid. split.
  - rewrite vhd_footer_ok by exact Hsize.
    rewrite (pack_s_exact 16 unique_id) by exact Hid. reflexivity.
  - rewrite length_spec_footer_layout, Hid. reflexivity.
Qed.

Lemma vhd_footer_layout_witness :
  0 <= 2 * 1048576 < 2 ^ 64
  /\ length (replicate 16 x01) = 16%nat
  /\ vhd_footer (replicate 16 x01) (2 * 1048576)
     = Ok (spec_footer_layout (2 * 1048576)
             (vhd_footer_checksum
                (spec_footer_layout (2 * 1048576) 0 (replicate 16 x01)))
             (replicate 16 x01)).
Proof.
  split; [lia |]. split; [reflexivity |].
  apply (vhd_footer_layout (replicate 16 x01) (2 * 1048576)); [lia | reflexivity].
Defined.

(** The integer fields of the layout read back as the numbers stored. *)
Lemma size_fields_decode (size : Z) :
  0 <= size < 2 ^ 64 ->
  be_decode (be_bytes 8 size) = size
  /\ be_decode (be_bytes 2 (chs_cylinders size)) = chs_cylinders size
  /\ be_decode (be_bytes 1 (chs_heads size)) = chs_heads size
  /\ be_decode (be_bytes 1 (chs_sectors_per_track size)) = chs_sectors_per_track size.
Proof.
  intros Hsize.
  pose proof (chs_fields_fit size ltac:(lia)) as (Hc & Hh & Hs).
  repeat split; apply be_decode_be_bytes; cbn; lia.
Qed.

(** C5: for every footer [vhd_footer] returns, the byte sum of the
    footer with its checksum field zeroed, complemented and cut to 32
    bits, is the stored checksum; and the first packing differs from
    the footer in the checksum field only. *)
Theorem vhd_footer_checksum_reproduced
    (unique_id : list byte) (size : Z) (footer : list byte) :
  vhd_footer unique_id size = Ok footer ->
  spec_checksum (zero_checksum_field footer) = stored_checksum footer
  /\ vhd_footer_checksum (zero_checksum_field footer) = stored_checksum footer
  /\ exists footer_tmp : list byte,
       struct_pack vhd_footer_format (footer_fields unique_id size) = Ok footer_tmp
       /\ length footer_tmp = length footer
       /\ take 64 footer_tmp = take 64 footer
       /\ drop 68 footer_tmp = drop 68 footer
       /\ footer_tmp = zero_checksum_field footer.
Proof.
  intros Hfooter.
  destruct (vhd_footer_cases unique_id size) as [[Hsize Hok] | [_ Herr]];
    [| rewrite Herr in Hfooter; discriminate Hfooter].
  rewrite Hok in Hfooter. injection Hfooter as <-.
  pose proof (footer_checksum_range unique_id size) as Hck.
  pose proof (length_footer_tmp unique_id size) as Hlen.
  rewrite zero_checksum_layout, stored_checksum_layout by exact Hck.
  split; [| split].
  - symmetry. apply checksum_is_complement. rewrite Hlen. lia.
  - reflexivity.
  - exists (spec_footer_layout size 0 (pack_s 16 unique_id)).
    split.
    { rewrite (footer_fields_checksum_0 unique_id size).
      apply pack_footer_fields; [exact Hsize | lia]. }
    rewrite !take_64_layout, !drop_68_layout, !length_spec_footer_layout.
    repeat split.
Qed.

Lemma vhd_footer_checksum_reproduced_witness :
  let footer :=
    spec_footer_layout 1048576
      (vhd_footer_checksum (spec_footer_layout 1048576 0 (replicate 16 x2a)))
      (replicate 16 x2a) in
  vhd_footer (replicate 16 x2a) 1048576 = Ok footer
  /\ spec_checksum (zero_checksum_field footer) = stored_checksum footer.
Proof.
  intros footer.
  assert (H : vhd_footer (replicate 16 x2a) 1048576 = Ok footer)
    by (vm_compute; reflexivity).
  split; [exact H |].
  exact (proj1 (vhd_footer_checksum_reproduced (replicate 16 x2a) 1048576 footer H)).
Defined.

(** ** The conversion *)

(** A footer is returned exactly for the sizes its 8-byte fields can
    hold, and is then 512 bytes long. *)
Lemma vhd_footer_returns (unique_id : list byte) (size : Z) :
  0 <= size < 2 ^ 64 ->
  exists footer : list byte,
    vhd_footer unique_id size = Ok footer /\ length footer = 512%nat.
Proof.
  intros Hsize. eexists. split; [apply vhd_footer_ok; exact Hsize |].
  rewrite length_spec_footer_layout, length_pack_s. reflexivity.
Qed.

Lemma vhd_footer_never_alignment (unique_id : list byte) (size : Z) (msg : string) :
  vhd_footer unique_id size <> Raise (Exception msg).
Proof.
  destruct (vhd_footer_cases unique_id size) as [[_ H] | [_ H]];
    rewrite H; discriminate.
Qed.

(** C6: on an input file that exists, [convert] ends with the alignment
    exception exactly when the size of the file is not a multiple of
    1,048,576; in that case the file system is left as it was, so the
    output path is neither created nor modified. *)
Theorem convert_alignment_error
    (unique_id : list byte) (rawPath vhdPath : string)
    (fs : gmap string (list byte)) (data : list byte) :
  fs !! rawPath = Some data ->
  ((convert unique_id rawPath vhdPath fs).1
     = Raise (Exception "RAW image size is not aligned to 1 MB")
   <-> Z.of_nat (length data) mod 1048576 <> 0)
  /\ (Z.of_nat (length data) mod 1048576 <> 0 ->
      (convert unique_id rawPath vhdPath fs).2 = fs
      /\ (convert unique_id rawPath vhdPath fs).2 !! vhdPath = fs !! vhdPath).
Proof.
  intros Hraw. split; [split |].
  - intros Hexn Hmod.
    rewrite (convert_aligned unique_id rawPath vhdPath fs data Hraw Hmod) in Hexn.
    pose proof (vhd_footer_never_alignment unique_id (Z.of_nat (length data))
                  "RAW image size is not aligned to 1 MB") as Hne.
    destruct (vhd_footer unique_id (Z.of_nat (length data))) as [footer | e];
      simpl in Hexn; congruence.
  - intros Hmod.
    rewrite (convert_misaligned unique_id rawPath vhdPath fs data Hraw Hmod).
    reflexivity.
  - intros Hmod.
    rewrite (convert_misaligned unique_id rawPath vhdPath fs data Hraw Hmod).
    split; reflexivity.
Qed.

Lemma convert_alignment_error_witness :
  let fs : gmap string (list byte) := {[ "disk.raw"%string := [x00] ]} in
  fs !! "disk.raw"%string = Some [x00]
  /\ (convert (replicate 16 x2a) "disk.raw" "disk.vhd" fs).1
     = Raise (Exception "RAW image size is not aligned to 1 MB")
  /\ (convert (replicate 16 x2a) "disk.raw" "disk.vhd" fs).2 !! "disk.vhd"%string = None.
Proof.
  intros fs.
  assert (Hraw : fs !! "disk.raw"%string = Some [x00]) by reflexivity.
  pose proof (convert_alignment_error (replicate 16 x2a) "disk.raw" "disk.vhd"
                fs [x00] Hraw) as [Hiff Hsame].
  assert (Hmod : Z.of_nat (length [x00]) mod 1048576 <> 0) by (vm_compute; discriminate).
  split; [exact Hraw |]. split.
  - apply Hiff. exact Hmod.
  - rewrite (proj2 (Hsame Hmod)). reflexivity.
Defined.

Lemma length_zeros (n : Z) : 0 <= n -> Z.of_nat (length (zeros n)) = n.
Proof.
  intros Hn. unfold zeros. rewrite length_replicate. apply Z2Nat.id. exact Hn.
Qed.

(** When the output path is the input path, opening the output empties
    the file before it is read: only the footer is left. *)
Lemma convert_same_path (unique_id : list byte) (path : string)
    (fs : gmap string (list byte)) (data : list byte) :
  fs !! path = Some data ->
  Z.of_nat (length data) mod (1024 * 1024) = 0 ->
  Z.of_nat (length data) < 2 ^ 64 ->
  exists footer : list byte,
    length footer = 512%nat
    /\ convert unique_id path path fs = (Ok tt, <[path := footer]> fs).
Proof.
  intros Hraw Hmod Hsize.
  destruct (vhd_footer_returns unique_id (Z.of_nat (length data)) ltac:(lia))
    as (footer & Hfooter & Hlen).
  exists footer. split; [exact Hlen |].
  rewrite (convert_aligned unique_id path path fs data Hraw Hmod).
  rewrite Hfooter, decide_True by reflexivity. reflexivity.
Qed.

(** The claim of section 6 as the specification gives it, input bytes
    then the footer for every aligned input, fails on a file of one
    megabyte converted onto itself: the result does not start with the
    input bytes. *)
Lemma convert_same_path_loses_body :
  Z.of_nat (length (zeros 1048576)) mod 1048576 = 0
  /\ ~ exists footer : list byte,
         (convert (replicate 16 x2a) "disk.raw" "disk.raw"
            {[ "disk.raw"%string := zeros 1048576 ]}).2 !! "disk.raw"%string
         = Some (zeros 1048576 ++ footer).
Proof.
  pose proof (length_zeros 1048576 ltac:(lia)) as Hlen.
  revert Hlen. generalize (zeros 1048576). intros data Hlen.
  split; [rewrite Hlen; reflexivity |].
  intros [footer Hout].
  destruct (convert_same_path (replicate 16 x2a) "disk.raw"
              {[ "disk.raw"%string := data ]} data) as (footer' & Hlen' & Hrun).
  - apply lookup_singleton_eq.
  - rewrite Hlen. reflexivity.
  - lia.
  - rewrite Hrun in Hout. cbn [snd] in Hout.
    rewrite lookup_insert_eq in Hout. injection Hout as Hout.
    apply (f_equal length) in Hout. rewrite length_app in Hout. lia.
Qed.

(** ** Two runs on the same input *)

(** Two footers of one size agree before the checksum field and after
    the unique id field. *)
Lemma footers_agree_outside (uid1 uid2 f1 f2 : list byte) (size : Z) :
  vhd_footer uid1 size = Ok f1 ->
  vhd_footer uid2 size = Ok f2 ->
  length f1 = 512%nat /\ length f2 = 512%nat
  /\ take 64 f1 = take 64 f2
  /\ drop 84 f1 = drop 84 f2.
Proof.
  intros H1 H2.
  destruct (vhd_footer_cases uid1 size) as [[Hsize Hok1] | [_ Herr]];
    [| rewrite Herr in H1; discriminate H1].
  rewrite (vhd_footer_ok uid2 size Hsize) in H2.
  rewrite Hok1 in H1. injection H1 as <-. injection H2 as <-.
  rewrite !length_spec_footer_layout, !take_64_layout, !length_pack_s.
  rewrite !drop_84_layout by apply length_pack_s.
  repeat split.
Qed.

(** The claim of section 8 as the specification gives it, footers equal
    in every field but the unique id, fails for two version-4
    identifiers that differ in their last byte: the checksum fields
    differ too. *)
Lemma footers_differ_in_checksum :
  exists f1 f2 : list byte,
    vhd_footer (be_bytes 16 0x00000000000040008000000000000000) 1048576 = Ok f1
    /\ vhd_footer (be_bytes 16 0x00000000000040008000000000000001) 1048576 = Ok f2
    /\ take 4 (drop 64 f1) <> take 4 (drop 64 f2)
    /\ stored_checksum f1 <> stored_checksum f2
    /\ take 68 f1 <> take 68 f2.
Proof.
  eexists. eexists.
  split; [vm_compute; reflexivity |].
  split; [vm_compute; reflexivity |].
  repeat split; vm_compute; discriminate.
Qed.

(** C8, amended: two runs of the conversion on the same input, which
    differ in the unique id drawn, produce output files with the same
    body, and footers that are byte-identical in every field except the
    16-byte unique id field and the 4-byte checksum field: bytes 0 to 63
    and bytes 84 to 511 are the same. *)
Theorem conversions_agree_outside_id_and_checksum
    (uid1 uid2 : list byte) (rawPath vhdPath : string)
    (fs : gmap string (list byte)) (data : list byte) :
  fs !! rawPath = Some data ->
  Z.of_nat (length data) mod 1048576 = 0 ->
  Z.of_nat (length data) < 2 ^ 64 ->
  exists body f1 f2 : list byte,
    convert uid1 rawPath vhdPath fs = (Ok tt, <[vhdPath := body ++ f1]> fs)
    /\ convert uid2 rawPath vhdPath fs = (Ok tt, <[vhdPath := body ++ f2]> fs)
    /\ vhd_footer uid1 (Z.of_nat (length data)) = Ok f1
    /\ vhd_footer uid2 (Z.of_nat (length data)) = Ok f2
    /\ length f1 = 512%nat /\ length f2 = 512%nat
    /\ take 64 f1 = take 64 f2
    /\ drop 84 f1 = drop 84 f2.
Proof.
  intros Hraw Hmod Hsize.
  destruct (vhd_footer_returns uid1 (Z.of_nat (length data)) ltac:(lia))
    as (f1 & Hf1 & _).
  destruct (vhd_footer_returns uid2 (Z.of_nat (length data)) ltac:(lia))
    as (f2 & Hf2 & _).
  exists (if decide (rawPath = vhdPath) then [] else data), f1, f2.
  rewrite (convert_aligned uid1 rawPath vhdPath fs data Hraw Hmod).
  rewrite (convert_aligned uid2 rawPath vhdPath fs data Hraw Hmod).
  rewrite Hf1, Hf2.
  split; [reflexivity |]. split; [reflexivity |].
  split; [reflexivity |]. split; [reflexivity |].
  apply (footers_agree_outside uid1 uid2 f1 f2 (Z.of_nat (length data)) Hf1 Hf2).
Qed.

Lemma conversions_agree_outside_id_and_checksum_witness :
  let fs : gmap string (list byte) := {[ "disk.raw"%string := [] ]} in
  fs !! "disk.raw"%string = Some []
  /\ exists body f1 f2 : list byte,
       convert (replicate 16 x01) "disk.raw" "disk.vhd" fs
       = (Ok tt, <[ "disk.vhd"%string := body ++ f1 ]> fs)
       /\ convert (replicate 16 x02) "disk.raw" "disk.vhd" fs
          = (Ok tt, <[ "disk.vhd"%string := body ++ f2 ]> fs)
       /\ vhd_footer (replicate 16 x01) 0 = Ok f1
       /\ vhd_footer (replicate 16 x02) 0 = Ok f2
       /\ length f1 = 512%nat /\ length f2 = 512%nat
       /\ take 64 f1 = take 64 f2
       /\ drop 84 f1 = drop 84 f2.
Proof.
  intros fs.
  assert (Hraw : fs !! "disk.raw"%string = Some []) by reflexivity.
  split; [exact Hraw |].
  apply (conversions_agree_outside_id_and_checksum
           (replicate 16 x01) (replicate 16 x02) "disk.raw" "disk.vhd" fs [] Hraw);
    reflexivity.
Defined.

(** ** The empty image *)

(** C9: an image of 0 bytes is accepted: 0 is a multiple of 1,048,576
    and [convert] succeeds; [vhd_chs 0] is (0, 4, 17); and the output
    file holds exactly the 512 bytes of the footer. *)
Theorem convert_empty_image
    (unique_id : list byte) (rawPath vhdPath : string)
    (fs : gmap string (list byte)) :
  fs !! rawPath = Some [] ->
  0 mod 1048576 = 0
  /\ vhd_chs 0 = (0, 4, 17)
  /\ exists footer : list byte,
       vhd_footer unique_id 0 = Ok footer
       /\ length footer = 512%nat
       /\ convert unique_id rawPath vhdPath fs = (Ok tt, <[vhdPath := footer]> fs)
       /\ (convert unique_id rawPath vhdPath fs).2 !! vhdPath = Some footer.
Proof.
  intros Hraw. split; [reflexivity |]. split; [reflexivity |].
  destruct (vhd_footer_returns unique_id 0 ltac:(lia)) as (footer & Hfooter & Hlen).
  exists footer. split; [exact Hfooter |]. split; [exact Hlen |].
  assert (Hrun : convert unique_id rawPath vhdPath fs
                 = (Ok tt, <[vhdPath := footer]> fs)).
  { rewrite (convert_aligned unique_id rawPath vhdPath fs [] Hraw eq_refl).
    change (Z.of_nat (length (@nil byte))) with 0. rewrite Hfooter.
    destruct (decide (rawPath = vhdPath)); reflexivity. }
  split; [exact Hrun |].
  rewrite Hrun. apply lookup_insert_eq.
Qed.

Lemma convert_empty_image_witness :
  let fs : gmap string (list byte) := {[ "empty.raw"%string := [] ]} in
  fs !! "empty.raw"%string = Some []
  /\ vhd_chs 0 = (0, 4, 17)
  /\ exists footer : list byte,
       vhd_footer (replicate 16 x2a) 0 = Ok footer
       /\ length footer = 512%nat
       /\ convert (replicate 16 x2a) "empty.raw" "empty.vhd" fs
          = (Ok tt, <[ "empty.vhd"%string := footer ]> fs)
       /\ (convert (replicate 16 x2a) "empty.raw" "empty.vhd" fs).2
            !! "empty.vhd"%string = Some footer.
Proof.
  intros fs.
  assert (Hraw : fs !! "empty.raw"%string = Some []) by reflexivity.
  split; [exact Hraw |].
  exact (proj2 (convert_empty_image (replicate 16 x2a) "empty.raw" "empty.vhd" fs Hraw)).
Defined.

(** * Further properties *)

(** ** Geometry: branches and limits *)

(** The sector count after the clamp decides the branch. *)
Lemma vhd_chs_branches (size : Z) :
  let s := Z.min (size / 512) (65535 * 16 * 255) in
  (65535 * 16 * 63 <= s /\ vhd_chs size = (s / 255 / 16, 16, 255))
  \/ (16384 * 31 <= s < 65535 * 16 * 63 /\ vhd_chs size = (s / 63 / 16, 16, 63))
  \/ (s < 16384 * 31
      /\ (4096 <= s / 17 /\ (s / 17) mod 1024 = 0 \/ 16384 <= s / 17)
      /\ vhd_chs size = (s / 31 / 16, 16, 31))
  \/ (s / 17 < 16384
      /\ ~ (4096 <= s / 17 /\ (s / 17) mod 1024 = 0)
      /\ vhd_chs size
         = (s / 17 / Z.max 4 ((s / 17 + 1023) / 1024),
            Z.max 4 ((s / 17 + 1023) / 1024), 17)).
Proof.
  unfold vhd_chs. cbv zeta. rewrite clamp_min, floor_max, shiftr_10.
  generalize (Z.min (size / 512) (65535 * 16 * 255)). intros s.
  set (h := Z.max 4 ((s / 17 + 1023) / 1024)).
  split_ifs; bool_to_Z.
  all: try discriminate.
  all: subst h.
  all: first
    [ left; split; [lia | reflexivity]
    | right; left; split;
      [Z.to_euclidean_division_equations; lia | reflexivity]
    | right; right; left; split; [| split; [| reflexivity]];
      Z.to_euclidean_division_equations; lia
    | right; right; right; split; [| split; [| reflexivity]];
      Z.to_euclidean_division_equations; lia ].
Qed.

Ltac chs_cases size :=
  unfold chs_cylinders, chs_heads, chs_sectors_per_track;
  pose proof (vhd_chs_branches size) as Hb; cbv zeta in Hb;
  destruct Hb as [[Hr ->] | [[Hr ->] | [(Hr & Hsw & ->) | (Hr & Hsw & ->)]]];
  cbn [fst snd].

(** X1: from 512*65535*16*255 bytes on, the sector count is clamped and
    the geometry is the largest one, (65535, 16, 255). *)
Theorem vhd_chs_saturates (size : Z) :
  512 * (65535 * 16 * 255) <= size ->
  vhd_chs size = (65535, 16, 255).
Proof.
  intros Hsize.
  assert (Hs : Z.min (size / 512) (65535 * 16 * 255) = 65535 * 16 * 255).
  { apply Z.min_r. apply Z.div_le_lower_bound; lia. }
  pose proof (vhd_chs_branches size) as Hb. cbv zeta in Hb. rewrite Hs in Hb.
  destruct Hb as [[_ ->] | [[Hr _] | [(Hr & _) | (Hr & _)]]].
  - reflexivity.
  - lia.
  - lia.
  - exfalso. revert Hr. vm_compute. discriminate.
Qed.

Lemma vhd_chs_saturates_witness :
  512 * (65535 * 16 * 255) <= 2 ^ 41
  /\ vhd_chs (2 ^ 41) = (65535, 16, 255).
Proof.
  split; [vm_compute; discriminate | apply (vhd_chs_saturates (2 ^ 41))].
  vm_compute. discriminate.
Defined.

(** X2: below 34 MB the geometry has 4 heads and 17 sectors per track,
    and the cylinders are the sector count divided by 17 and then by 4. *)
Theorem vhd_chs_small_images (size : Z) :
  size < 34 * 1048576 ->
  vhd_chs size = (size / 512 / 17 / 4, 4, 17).
Proof.
  intros Hsize.
  assert (Hs : Z.min (size / 512) (65535 * 16 * 255) = size / 512).
  { apply Z.min_l. Z.to_euclidean_division_equations. lia. }
  pose proof (vhd_chs_branches size) as Hb. cbv zeta in Hb. rewrite Hs in Hb.
  assert (H17 : size / 512 / 17 < 4096)
    by (Z.to_euclidean_division_equations; lia).
  assert (Hh : Z.max 4 ((size / 512 / 17 + 1023) / 1024) = 4).
  { apply Z.max_l. Z.to_euclidean_division_equations. lia. }
  destruct Hb as [[Hr _] | [[Hr _] | [(Hr & Hsw & _) | (Hr & Hsw & ->)]]].
  - exfalso. Z.to_euclidean_division_equations. lia.
  - exfalso. Z.to_euclidean_division_equations. lia.
  - exfalso. lia.
  - rewrite Hh. reflexivity.
Qed.

Lemma vhd_chs_small_images_witness :
  1048576 < 34 * 1048576
  /\ vhd_chs 1048576 = (1048576 / 512 / 17 / 4, 4, 17).
Proof.
  split; [reflexivity | apply (vhd_chs_small_images 1048576); reflexivity].
Defined.

(** X3: as long as the sector count is not clamped, the cylinder count
    is the largest one that fits: one more cylinder of the chosen heads
    and sectors per track would describe more bytes than the image has. *)
Theorem vhd_chs_cylinders_maximal (size : Z) :
  size < 512 * (65535 * 16 * 255 + 1) ->
  size < (chs_cylinders size + 1) * chs_heads size * chs_sectors_per_track size * 512.
Proof.
  intros Hsize.
  assert (Hs : Z.min (size / 512) (65535 * 16 * 255) = size / 512).
  { apply Z.min_l. Z.to_euclidean_division_equations. lia. }
  assert (Hmax : forall s spt h : Z, 0 < spt -> 0 < h ->
            s < (s / spt / h + 1) * h * spt).
  { intros s spt h Hspt Hh.
    pose proof (Z.mul_succ_div_gt (s / spt) h Hh).
    pose proof (Z.mul_succ_div_gt s spt Hspt). nia. }
  assert (Hsec : size < 512 * (size / 512 + 1))
    by (Z.to_euclidean_division_equations; lia).
  chs_cases size; rewrite Hs in *.
  - specialize (Hmax (size / 512) 255 16 ltac:(lia) ltac:(lia)). lia.
  - specialize (Hmax (size / 512) 63 16 ltac:(lia) ltac:(lia)). lia.
  - specialize (Hmax (size / 512) 31 16 ltac:(lia) ltac:(lia)). lia.
  - specialize (Hmax (size / 512) 17 (Z.max 4 ((size / 512 / 17 + 1023) / 1024))
                  ltac:(lia) ltac:(lia)).
    nia.
Qed.

Lemma vhd_chs_cylinders_maximal_witness :
  35 * 1048576 < 512 * (65535 * 16 * 255 + 1)
  /\ 35 * 1048576
     < (chs_cylinders (35 * 1048576) + 1) * chs_heads (35 * 1048576)
       * chs_sectors_per_track (35 * 1048576) * 512.
Proof.
  split; [reflexivity | apply (vhd_chs_cylinders_maximal (35 * 1048576)); reflexivity].
Defined.

(** X4: 255 sectors per track are used exactly from 512*65535*16*63
    bytes on, and 63 exactly from 512*16384*31 bytes (248 MB) up to
    that threshold. *)
Theorem vhd_chs_sectors_per_track_ranges (size : Z) :
  (chs_sectors_per_track size = 255 <-> 512 * (65535 * 16 * 63) <= size)
  /\ (chs_sectors_per_track size = 63
      <-> 512 * (16384 * 31) <= size < 512 * (65535 * 16 * 63)).
Proof.
  assert (Hlo : forall k : Z, k <= Z.min (size / 512) (65535 * 16 * 255)
                  <-> (512 * k <= size /\ k <= 65535 * 16 * 255)).
  { intros k. Z.to_euclidean_division_equations. lia. }
  pose proof (Hlo (65535 * 16 * 63)) as H255.
  pose proof (Hlo (16384 * 31)) as H63.
  chs_cases size; repeat split; intros; try congruence; try lia.
  all: exfalso; Z.to_euclidean_division_equations; lia.
Qed.

(** X6: fewer than 16 heads occur only with 17 sectors per track, and
    with 17 or 31 sectors per track the cylinders stay below 1024. *)
Theorem vhd_chs_bios_limits (size : Z) :
  (chs_sectors_per_track size <> 17 -> chs_heads size = 16)
  /\ (chs_sectors_per_track size = 17 \/ chs_sectors_per_track size = 31 ->
      chs_cylinders size < 1024).
Proof.
  chs_cases size; split; intros H; try reflexivity; try congruence.
  all: try (destruct H; discriminate).
  - apply Z.div_lt_upper_bound; [lia |]. Z.to_euclidean_division_equations. lia.
  - apply Z.div_lt_upper_bound; [lia |]. Z.to_euclidean_division_equations. lia.
Qed.

(** X5: 31 sectors per track are used exactly when the sector count is
    below 16384*31 and the sector count divided by 17 is either at
    least 16384, or at least 4096 and a multiple of 1024. *)
Theorem vhd_chs_31_condition (size : Z) :
  chs_sectors_per_track size = 31
  <-> size / 512 < 16384 * 31
      /\ (4096 <= size / 512 / 17 /\ (size / 512 / 17) mod 1024 = 0
          \/ 16384 <= size / 512 / 17).
Proof.
  chs_cases size.
  all: destruct (Z.min_spec (size / 512) (65535 * 16 * 255)) as [[Hlt Hm] | [Hlt Hm]];
    rewrite Hm in *.
  all: split; [intros H; try discriminate H | intros [H1 H2]; try reflexivity].
  all: try (exfalso; lia).
  all: try (exfalso; Z.to_euclidean_division_equations; lia).
  all: try (split; [lia | tauto]).
  all: try (exfalso; tauto).
Qed.

(** ** Checksum arithmetic *)

Lemma Z_of_byte_inj (a b : byte) : Z_of_byte a = Z_of_byte b -> a = b.
Proof.
  unfold Z_of_byte. intros H. apply N2Z.inj in H.
  pose proof (Byte.of_to_N a) as Ha. rewrite H, Byte.of_to_N in Ha.
  congruence.
Qed.

Lemma lxor_cancel_r (a b c : Z) : Z.lxor a c = Z.lxor b c -> a = b.
Proof.
  intros H. apply (f_equal (fun x => Z.lxor x c)) in H.
  rewrite !Z.lxor_assoc, Z.lxor_nilpotent, !Z.lxor_0_r in H. exact H.
Qed.

Lemma byte_sum_insert (bs : list byte) (i : nat) (old new : byte) :
  bs !! i = Some old ->
  byte_sum (<[i := new]> bs) = byte_sum bs - Z_of_byte old + Z_of_byte new.
Proof.
  revert i. induction bs as [| b bs IH]; intros i Hi; [discriminate Hi |].
  destruct i as [| i]; simpl in *.
  - injection Hi as ->. lia.
  - rewrite (IH i Hi). lia.
Qed.

Lemma byte_sum_permutation (bs bs' : list byte) :
  Permutation bs bs' -> byte_sum bs = byte_sum bs'.
Proof.
  induction 1; simpl; lia.
Qed.

(** X7: on a byte string of at most 16843009 bytes the checksum is
    0xFFFFFFFF minus the byte sum; it is the complement of the sum cut to
    32 bits and fits 32 bits. *)
Theorem vhd_footer_checksum_closed_form (record : list byte) :
  Z.of_nat (length record) <= 16843009 ->
  vhd_footer_checksum record = 0xFFFFFFFF - byte_sum record
  /\ vhd_footer_checksum record = spec_checksum record
  /\ 0 <= vhd_footer_checksum record <= 0xFFFFFFFF.
Proof.
  intros Hlen. unfold vhd_footer_checksum, spec_checksum. cbv zeta.
  pose proof (byte_sum_range record) as Hr.
  assert (Hs : 0 <= byte_sum record < 2 ^ 32) by lia.
  rewrite lnot_mod_32, lxor_ones_32 by exact Hs. lia.
Qed.

Lemma vhd_footer_checksum_closed_form_witness :
  Z.of_nat (length (bytes_of "conectix")) <= 16843009
  /\ vhd_footer_checksum (bytes_of "conectix")
     = 0xFFFFFFFF - byte_sum (bytes_of "conectix").
Proof.
  split; [vm_compute; discriminate |].
  apply (vhd_footer_checksum_closed_form (bytes_of "conectix")).
  vm_compute. discriminate.
Defined.

(** X8: the checksum does not depend on the order of the bytes: a
    reordered record has the same checksum. *)
Theorem vhd_footer_checksum_ignores_order (record record' : list byte) :
  Permutation record record' ->
  vhd_footer_checksum record = vhd_footer_checksum record'.
Proof.
  intros Hp. unfold vhd_footer_checksum. cbv zeta.
  rewrite (byte_sum_permutation record record' Hp). reflexivity.
Qed.

Lemma vhd_footer_checksum_ignores_order_witness :
  Permutation [x01; xfe] [xfe; x01]
  /\ vhd_footer_checksum [x01; xfe] = vhd_footer_checksum [xfe; x01].
Proof.
  assert (Hp : Permutation [x01; xfe] [xfe; x01]) by apply perm_swap.
  split; [exact Hp | apply (vhd_footer_checksum_ignores_order _ _ Hp)].
Defined.

(** X9: changing one byte of a record to another value always changes
    its checksum. *)
Theorem vhd_footer_checksum_detects_byte_change
    (record : list byte) (i : nat) (old new : byte) :
  record !! i = Some old ->
  new <> old ->
  vhd_footer_checksum (<[i := new]> record) <> vhd_footer_checksum record.
Proof.
  intros Hi Hne Heq. unfold vhd_footer_checksum in Heq. cbv zeta in Heq.
  apply lxor_cancel_r in Heq.
  rewrite (byte_sum_insert record i old new Hi) in Heq.
  apply Hne, Z_of_byte_inj. lia.
Qed.

Lemma vhd_footer_checksum_detects_byte_change_witness :
  [x01; x02; x03] !! 1%nat = Some x02
  /\ xff <> x02
  /\ vhd_footer_checksum (<[1%nat := xff]> [x01; x02; x03])
     <> vhd_footer_checksum [x01; x02; x03].
Proof.
  assert (H1 : [x01; x02; x03] !! 1%nat = Some x02) by reflexivity.
  assert (H2 : xff <> x02) by discriminate.
  split; [exact H1 |]. split; [exact H2 |].
  apply (vhd_footer_checksum_detects_byte_change [x01; x02; x03] 1 x02 xff H1 H2).
Defined.

(** X10: in every footer returned, the byte sum outside the checksum
    field plus the stored checksum is 0xFFFFFFFF. *)
Theorem vhd_footer_sum_check (unique_id : list byte) (size : Z) (footer : list byte) :
  vhd_footer unique_id size = Ok footer ->
  byte_sum (zero_checksum_field footer) + stored_checksum footer = 0xFFFFFFFF.
Proof.
  intros Hfooter.
  destruct (vhd_footer_cases unique_id size) as [[Hsize Hok] | [_ Herr]];
    [| rewrite Herr in Hfooter; discriminate Hfooter].
  rewrite Hok in Hfooter. injection Hfooter as <-.
  pose proof (footer_checksum_range unique_id size) as Hck.
  pose proof (length_footer_tmp unique_id size) as Hlen.
  rewrite zero_checksum_layout, stored_checksum_layout by exact Hck.
  pose proof (byte_sum_range (spec_footer_layout size 0 (pack_s 16 unique_id))) as Hr.
  unfold vhd_footer_checksum. cbv zeta.
  rewrite lxor_ones_32 by lia. lia.
Qed.

Lemma vhd_footer_sum_check_witness :
  let footer :=
    spec_footer_layout 1048576
      (vhd_footer_checksum (spec_footer_layout 1048576 0 (replicate 16 x2a)))
      (replicate 16 x2a) in
  vhd_footer (replicate 16 x2a) 1048576 = Ok footer
  /\ byte_sum (zero_checksum_field footer) + stored_checksum footer = 0xFFFFFFFF.
Proof.
  intros footer.
  assert (H : vhd_footer (replicate 16 x2a) 1048576 = Ok footer)
    by (vm_compute; reflexivity).
  split; [exact H |].
  exact (vhd_footer_sum_check (replicate 16 x2a) 1048576 footer H).
Defined.

(** ** Reading the footer back *)

Lemma take_drop_middle {A : Type} (pre x post : list A) (n m : nat) :
  length pre = n -> length x = m ->
  take m (drop n (pre ++ x ++ post)) = x.
Proof.
  intros Hn Hm.
  rewrite drop_app_length' by (symmetry; exact Hn).
  apply take_app_length'. symmetry. exact Hm.
Qed.

Section LayoutFields.
Variables size ck : Z.
Variable u : list byte.
Let f := spec_footer_layout size ck u.
Let tail := be_bytes 4 ck ++ u ++ spec_fields_after_unique_id.
Let geometry :=
  be_bytes 2 (chs_cylinders size) ++ be_bytes 1 (chs_heads size)
  ++ be_bytes 1 (chs_sectors_per_track size) ++ be_bytes 4 2 ++ tail.
Let fixed :=
  bytes_of "conectix" ++ be_bytes 4 2 ++ be_bytes 4 0x00010000
  ++ be_bytes 8 0xFFFFFFFFFFFFFFFF ++ be_bytes 4 0 ++ bytes_of "win "
  ++ be_bytes 4 0x00060003 ++ bytes_of "Wi2k".

(** One field of the layout: the bytes before it, the field, the rest. *)
Ltac layout_field pre x post :=
  match goal with
  | |- take ?m (drop ?n ?l) = _ =>
      replace l with (pre ++ x ++ post);
      [ apply take_drop_middle;
        unfold fixed;
        rewrite ?length_app, ?length_be_bytes, ?length_pack_s; reflexivity
      | unfold f, fixed, geometry, tail, spec_footer_layout,
          spec_fields_before_checksum;
        rewrite <- ?app_assoc; reflexivity ]
  end.

Lemma layout_fixed_fields : take 40 f = fixed.
Proof.
  replace f with (fixed ++ be_bytes 8 size ++ be_bytes 8 size ++ geometry).
  - apply take_app_length'. reflexivity.
  - unfold f, fixed, geometry, tail, spec_footer_layout,
      spec_fields_before_checksum.
    rewrite <- ?app_assoc. reflexivity.
Qed.

Lemma layout_original_size : take 8 (drop 40 f) = be_bytes 8 size.
Proof.
  layout_field fixed (be_bytes 8 size) (be_bytes 8 size ++ geometry).
Qed.

Lemma layout_current_size : take 8 (drop 48 f) = be_bytes 8 size.
Proof.
  layout_field (fixed ++ be_bytes 8 size) (be_bytes 8 size) geometry.
Qed.

Lemma layout_cylinders : take 2 (drop 56 f) = be_bytes 2 (chs_cylinders size).
Proof.
  layout_field (fixed ++ be_bytes 8 size ++ be_bytes 8 size)
    (be_bytes 2 (chs_cylinders size))
    (be_bytes 1 (chs_heads size) ++ be_bytes 1 (chs_sectors_per_track size)
     ++ be_bytes 4 2 ++ tail).
Qed.

Lemma layout_heads : take 1 (drop 58 f) = be_bytes 1 (chs_heads size).
Proof.
  layout_field (fixed ++ be_bytes 8 size ++ be_bytes 8 size
                ++ be_bytes 2 (chs_cylinders size))
    (be_bytes 1 (chs_heads size))
    (be_bytes 1 (chs_sectors_per_track size) ++ be_bytes 4 2 ++ tail).
Qed.

Lemma layout_sectors_per_track :
  take 1 (drop 59 f) = be_bytes 1 (chs_sectors_per_track size).
Proof.
  layout_field (fixed ++ be_bytes 8 size ++ be_bytes 8 size
                ++ be_bytes 2 (chs_cylinders size) ++ be_bytes 1 (chs_heads size))
    (be_bytes 1 (chs_sectors_per_track size))
    (be_bytes 4 2 ++ tail).
Qed.

Lemma layout_disk_type : take 4 (drop 60 f) = be_bytes 4 2.
Proof.
  layout_field (fixed ++ be_bytes 8 size ++ be_bytes 8 size
                ++ be_bytes 2 (chs_cylinders size) ++ be_bytes 1 (chs_heads size)
                ++ be_bytes 1 (chs_sectors_per_track size))
    (be_bytes 4 2) tail.
Qed.

Lemma layout_unique_id : length u = 16%nat -> take 16 (drop 68 f) = u.
Proof.
  intros Hu. unfold f. rewrite drop_68_layout.
  apply take_app_length'. symmetry. exact Hu.
Qed.
End LayoutFields.


Lemma footer_is_layout (unique_id : list byte) (size : Z) (footer : list byte) :
  vhd_footer unique_id size = Ok footer ->
  0 <= size < 2 ^ 64
  /\ footer = spec_footer_layout size
                (vhd_footer_checksum (spec_footer_layout size 0 (pack_s 16 unique_id)))
                (pack_s 16 unique_id).
Proof.
  intros Hfooter.
  destruct (vhd_footer_cases unique_id size) as [[Hsize Hok] | [_ Herr]];
    [| rewrite Herr in Hfooter; discriminate Hfooter].
  rewrite Hok in Hfooter. injection Hfooter as <-. split; [exact Hsize | reflexivity].
Qed.

(** X11: [vhd_footer] returns a footer, always of 512 bytes whatever
    the length of the unique id, exactly for sizes from 0 to 2^64 - 1,
    and raises [struct.error] exactly for the other sizes. *)
Theorem vhd_footer_returns_iff (unique_id : list byte) (size : Z) :
  ((exists footer : list byte,
      vhd_footer unique_id size = Ok footer /\ length footer = 512%nat)
   <-> 0 <= size < 2 ^ 64)
  /\ (vhd_footer unique_id size = Raise StructError <-> ~ 0 <= size < 2 ^ 64).
Proof.
  destruct (vhd_footer_cases unique_id size) as [[Hsize Hok] | [Hsize Herr]].
  - split; split.
    + intros _. exact Hsize.
    + intros _. apply vhd_footer_returns. exact Hsize.
    + rewrite Hok. discriminate.
    + intros H. contradiction.
  - split; split.
    + intros [footer [H _]]. rewrite Herr in H. discriminate H.
    + intros H. contradiction.
    + intros _. exact Hsize.
    + intros _. exact Herr.
Qed.

(** X12: a returned footer reads back: it starts with the cookie, the
    big-endian fields at offsets 40 and 48 hold the size, those at 56,
    58 and 59 the geometry of [vhd_chs], the one at 60 the disk type 2,
    and bytes 68 to 83 the unique id on 16 bytes. *)
Theorem vhd_footer_reads_back (unique_id : list byte) (size : Z) (footer : list byte) :
  vhd_footer unique_id size = Ok footer ->
  take 8 footer = bytes_of "conectix"
  /\ be_decode (take 8 (drop 40 footer)) = size
  /\ be_decode (take 8 (drop 48 footer)) = size
  /\ be_decode (take 2 (drop 56 footer)) = chs_cylinders size
  /\ be_decode (take 1 (drop 58 footer)) = chs_heads size
  /\ be_decode (take 1 (drop 59 footer)) = chs_sectors_per_track size
  /\ be_decode (take 4 (drop 60 footer)) = 2
  /\ take 16 (drop 68 footer) = pack_s 16 unique_id.
Proof.
  intros Hfooter.
  destruct (footer_is_layout unique_id size footer Hfooter) as [Hsize ->].
  destruct (size_fields_decode size Hsize) as (Hd8 & Hd2 & Hdh & Hds).
  rewrite layout_original_size, layout_current_size, layout_cylinders,
    layout_heads, layout_sectors_per_track, layout_disk_type.
  rewrite layout_unique_id by apply length_pack_s.
  split.
  { pose proof (layout_fixed_fields size
      (vhd_footer_checksum (spec_footer_layout size 0 (pack_s 16 unique_id)))
      (pack_s 16 unique_id)) as H40.
    apply (f_equal (take 8)) in H40. rewrite take_take in H40. exact H40. }
  repeat split; assumption || reflexivity.
Qed.

Lemma vhd_footer_reads_back_witness :
  let footer :=
    spec_footer_layout (35 * 1048576)
      (vhd_footer_checksum (spec_footer_layout (35 * 1048576) 0 (replicate 16 x2a)))
      (replicate 16 x2a) in
  vhd_footer (replicate 16 x2a) (35 * 1048576) = Ok footer
  /\ be_decode (take 8 (drop 40 footer)) = 35 * 1048576.
Proof.
  intros footer.
  assert (H : vhd_footer (replicate 16 x2a) (35 * 1048576) = Ok footer)
    by (vm_compute; reflexivity).
  split; [exact H |].
  exact (proj1 (proj2 (vhd_footer_reads_back (replicate 16 x2a) (35 * 1048576) footer H))).
Defined.

(** X13: a footer determines the size and the unique id it was made
    from: two calls that return the same footer had the same size and
    the same 16 bytes of unique id. *)
Theorem vhd_footer_determines_input
    (uid1 uid2 : list byte) (size1 size2 : Z) (footer : list byte) :
  vhd_footer uid1 size1 = Ok footer ->
  vhd_footer uid2 size2 = Ok footer ->
  size1 = size2 /\ pack_s 16 uid1 = pack_s 16 uid2.
Proof.
  intros H1 H2.
  destruct (footer_is_layout uid1 size1 footer H1) as [Hs1 E1].
  destruct (footer_is_layout uid2 size2 footer H2) as [Hs2 E2].
  split.
  - pose proof (layout_original_size size1
      (vhd_footer_checksum (spec_footer_layout size1 0 (pack_s 16 uid1)))
      (pack_s 16 uid1)) as F1.
    pose proof (layout_original_size size2
      (vhd_footer_checksum (spec_footer_layout size2 0 (pack_s 16 uid2)))
      (pack_s 16 uid2)) as F2.
    rewrite <- E1 in F1. rewrite <- E2 in F2.
    rewrite <- (be_decode_be_bytes 8 size1) by exact Hs1.
    rewrite <- (be_decode_be_bytes 8 size2) by exact Hs2.
    rewrite <- F1, <- F2. reflexivity.
  - pose proof (layout_unique_id size1
      (vhd_footer_checksum (spec_footer_layout size1 0 (pack_s 16 uid1)))
      (pack_s 16 uid1) (length_pack_s 16 uid1)) as F1.
    pose proof (layout_unique_id size2
      (vhd_footer_checksum (spec_footer_layout size2 0 (pack_s 16 uid2)))
      (pack_s 16 uid2) (length_pack_s 16 uid2)) as F2.
    rewrite <- E1 in F1. rewrite <- E2 in F2.
    rewrite <- F1, <- F2. reflexivity.
Qed.

Lemma vhd_footer_determines_input_witness :
  let footer :=
    spec_footer_layout 1048576
      (vhd_footer_checksum (spec_footer_layout 1048576 0 (replicate 16 x2a)))
      (replicate 16 x2a) in
  vhd_footer (replicate 16 x2a) 1048576 = Ok footer
  /\ 1048576 = 1048576
  /\ pack_s 16 (replicate 16 x2a) = pack_s 16 (replicate 16 x2a).
Proof.
  intros footer.
  assert (H : vhd_footer (replicate 16 x2a) 1048576 = Ok footer)
    by (vm_compute; reflexivity).
  split; [exact H |].
  exact (vhd_footer_determines_input (replicate 16 x2a) (replicate 16 x2a)
           1048576 1048576 footer H H).
Defined.

(** ** Outcomes of [convert] *)

(** Every run of [convert], by the state of the input file. *)
Lemma convert_cases (unique_id : list byte) (raw_file vhd_file : string)
    (fs : gmap string (list byte)) :
  (fs !! raw_file = None
   /\ convert unique_id raw_file vhd_file fs = (Raise OSError, fs))
  \/ (exists data : list byte,
        fs !! raw_file = Some data
        /\ Z.of_nat (length data) mod (1024 * 1024) <> 0
        /\ convert unique_id raw_file vhd_file fs
           = (Raise (Exception "RAW image size is not aligned to 1 MB"), fs))
  \/ (exists data footer : list byte,
        fs !! raw_file = Some data
        /\ Z.of_nat (length data) mod (1024 * 1024) = 0
        /\ Z.of_nat (length data) < 2 ^ 64
        /\ vhd_footer unique_id (Z.of_nat (length data)) = Ok footer
        /\ length footer = 512%nat
        /\ convert unique_id raw_file vhd_file fs
           = (Ok tt, <[vhd_file :=
                         (if decide (raw_file = vhd_file) then [] else data)
                         ++ footer]> fs))
  \/ (exists data : list byte,
        fs !! raw_file = Some data
        /\ Z.of_nat (length data) mod (1024 * 1024) = 0
        /\ 2 ^ 64 <= Z.of_nat (length data)
        /\ convert unique_id raw_file vhd_file fs
           = (Raise StructError,
              <[vhd_file := if decide (raw_file = vhd_file) then [] else data]> fs)).
Proof.
  destruct (fs !! raw_file) as [data |] eqn:Hraw.
  - right.
    destruct (decide (Z.of_nat (length data) mod (1024 * 1024) = 0)) as [Hmod | Hmod].
    + right.
      pose proof (convert_aligned unique_id raw_file vhd_file fs data Hraw Hmod) as Hrun.
      cbv zeta in Hrun.
      destruct (vhd_footer_cases unique_id (Z.of_nat (length data)))
        as [[Hsize Hok] | [Hsize Herr]].
      * left. destruct (vhd_footer_returns unique_id _ Hsize) as (footer & Hf & Hlen).
        exists data, footer. rewrite Hf in Hrun.
        repeat split; try assumption; lia.
      * right. exists data. rewrite Herr in Hrun.
        repeat split; try assumption; lia.
    + left. exists data. repeat split; try assumption.
      apply (convert_misaligned unique_id raw_file vhd_file fs data Hraw Hmod).
  - left. split; [reflexivity |]. apply convert_missing. exact Hraw.
Qed.


(** X18: the output of a successful conversion is never itself
    accepted as input: its size is 512 bytes past a multiple of
    1,048,576, so converting it raises the alignment exception and
    changes nothing. *)
Theorem convert_output_not_convertible
    (uid1 uid2 : list byte) (rawPath vhdPath nextPath : string)
    (fs : gmap string (list byte)) :
  (convert uid1 rawPath vhdPath fs).1 = Ok tt ->
  convert uid2 vhdPath nextPath (convert uid1 rawPath vhdPath fs).2
  = (Raise (Exception "RAW image size is not aligned to 1 MB"),
     (convert uid1 rawPath vhdPath fs).2).
Proof.
  intros Hok.
  destruct (convert_cases uid1 rawPath vhdPath fs)
    as [[Hraw Hrun] | [(data & Hraw & Hmod & Hrun)
        | [(data & footer & Hraw & Hmod & Hsize & _ & Hlen & Hrun)
        | (data & Hraw & Hmod & Hsize & Hrun)]]];
    rewrite Hrun in Hok |- *; cbn [fst snd] in Hok |- *; try discriminate Hok.
  apply (convert_misaligned uid2 vhdPath nextPath _
           ((if decide (rawPath = vhdPath) then [] else data) ++ footer)).
  - apply lookup_insert_eq.
  - rewrite length_app, Hlen, Nat2Z.inj_add.
    change (Z.of_nat 512) with 512.
    rewrite <- Z.add_mod_idemp_l by lia.
    destruct (decide (rawPath = vhdPath)); [| rewrite Hmod]; discriminate.
Qed.

Lemma convert_output_not_convertible_witness :
  let fs : gmap string (list byte) := {[ "disk.raw"%string := [] ]} in
  (convert (replicate 16 x01) "disk.raw" "disk.vhd" fs).1 = Ok tt
  /\ (convert (replicate 16 x02) "disk.vhd" "next.vhd"
        (convert (replicate 16 x01) "disk.raw" "disk.vhd" fs).2).1
     = Raise (Exception "RAW image size is not aligned to 1 MB").
Proof.
  intros fs.
  assert (Hok : (convert (replicate 16 x01) "disk.raw" "disk.vhd" fs).1 = Ok tt)
    by (vm_compute; reflexivity).
  split; [exact Hok |].
  rewrite (convert_output_not_convertible (replicate 16 x01) (replicate 16 x02)
             "disk.raw" "disk.vhd" "next.vhd" fs Hok).
  reflexivity.
Defined.



(** * The conversion on named files *)

(** ** Runs on named files *)

Section PosixOutput.
Variable resolve : string -> string.
Variable vhd_file : string.
Variable fs : Posix.fsys.

(** The inode of the output, and the file system once it holds [d]. *)
Let out : N := Posix.output_inode resolve fs vhd_file.
Let written (d : list byte) : Posix.fsys := Posix.store resolve vhd_file out d fs.

Lemma posix_out_cases :
  Posix.entries fs !! resolve vhd_file = Some out
  \/ (Posix.entries fs !! resolve vhd_file = None
      /\ out ∉ (map_img (Posix.entries fs) : gset N)).
Proof.
  unfold out, Posix.output_inode.
  destruct (Posix.entries fs !! resolve vhd_file) as [i |] eqn:Hv.
  - left. reflexivity.
  - right. split; [reflexivity |].
    pose proof (is_fresh (dom (Posix.contents fs) ∪ map_img (Posix.entries fs))) as Hf.
    set_solver.
Qed.

(** An inode other than the one the output path denotes is not the
    output's, if it is in use. *)
Lemma posix_out_other (l : string) (k : N) :
  Posix.entries fs !! l = Some k ->
  Posix.entries fs !! resolve vhd_file <> Some k ->
  k <> out.
Proof.
  intros Hl Hv ->.
  destruct posix_out_cases as [Ho | [_ Ho]]; [congruence |].
  apply Ho. apply (elem_of_map_img_2 _ l). exact Hl.
Qed.

Lemma posix_written_entries (d : list byte) (l : string) (k : N) :
  Posix.entries fs !! l = Some k -> Posix.entries (written d) !! l = Some k.
Proof.
  intros Hl. unfold written, Posix.store. cbn [Posix.entries].
  destruct (decide (resolve vhd_file = l)) as [<- | Hne].
  - rewrite lookup_insert_eq.
    destruct posix_out_cases as [Ho | [Ho _]]; congruence.
  - rewrite lookup_insert_ne by exact Hne. exact Hl.
Qed.

Lemma posix_written_entries_ne (d : list byte) (l : string) :
  l <> resolve vhd_file ->
  Posix.entries (written d) !! l = Posix.entries fs !! l.
Proof.
  intros Hl. unfold written, Posix.store. cbn [Posix.entries].
  apply lookup_insert_ne. congruence.
Qed.

Lemma posix_written_out (d : list byte) :
  Posix.entries (written d) !! resolve vhd_file = Some out.
Proof.
  unfold written, Posix.store. cbn [Posix.entries]. apply lookup_insert_eq.
Qed.

Lemma posix_written_content (d : list byte) :
  Posix.content (written d) out = d.
Proof.
  unfold Posix.content, written, Posix.store. cbn [Posix.contents].
  rewrite lookup_insert_eq. reflexivity.
Qed.

Lemma posix_written_content_ne (d : list byte) (k : N) :
  k <> out -> Posix.content (written d) k = Posix.content fs k.
Proof.
  intros Hk. unfold Posix.content, written, Posix.store. cbn [Posix.contents].
  rewrite lookup_insert_ne by congruence. reflexivity.
Qed.

Lemma posix_written_again (d d' : list byte) :
  Posix.set_content out d' (written d) = written d'.
Proof.
  unfold Posix.set_content, written, Posix.store.
  cbn [Posix.entries Posix.contents].
  rewrite insert_insert_eq. reflexivity.
Qed.

(** What the copy finds in the input once the output is open. *)
Lemma posix_body (j : N) :
  Posix.content (written []) j
  = if decide (j = out) then [] else Posix.content fs j.
Proof.
  destruct (decide (j = out)) as [-> | Hne].
  - apply posix_written_content.
  - apply posix_written_content_ne. exact Hne.
Qed.

End PosixOutput.

Section PosixRun.
Variable resolve : string -> string.
Variable unique_id : list byte.
Variables raw_file vhd_file : string.
Variable fs : Posix.fsys.

Let out : N := Posix.output_inode resolve fs vhd_file.
Let written (d : list byte) : Posix.fsys := Posix.store resolve vhd_file out d fs.

(** Every run, by the fault and the state of the input. *)
Lemma posix_convert_cases (flt : Posix.fault) :
  let run := Posix.convert resolve flt unique_id raw_file vhd_file fs in
  ((flt = Posix.StatFails \/ Posix.entries fs !! resolve raw_file = None)
   /\ run = (Raise OSError, fs))
  \/ exists j : N,
       flt <> Posix.StatFails
       /\ Posix.entries fs !! resolve raw_file = Some j
       /\ let size := Z.of_nat (length (Posix.content fs j)) in
          let body := if decide (j = out) then [] else Posix.content fs j in
          (size mod (1024 * 1024) <> 0
           /\ run = (Raise (Exception "RAW image size is not aligned to 1 MB"), fs))
          \/ (size mod (1024 * 1024) = 0
              /\ match flt with
                 | Posix.StatFails => False
                 | Posix.OpenOutputFails => run = (Raise IOError, fs)
                 | Posix.OpenInputFails => run = (Raise IOError, written [])
                 | Posix.CopyFails n => run = (Raise IOError, written (take n body))
                 | Posix.FooterWriteFails n =>
                     match vhd_footer unique_id size with
                     | Ok footer => run = (Raise IOError, written (body ++ take n footer))
                     | Raise e => run = (Raise e, written body)
                     end
                 | Posix.NoFault =>
                     match vhd_footer unique_id size with
                     | Ok footer => run = (Ok tt, written (body ++ footer))
                     | Raise e => run = (Raise e, written body)
                     end
                 end).
Proof.
  intros run. subst run.
  assert (Hdec : flt = Posix.StatFails \/ flt <> Posix.StatFails)
    by (destruct flt; (left; reflexivity) || (right; discriminate)).
  destruct Hdec as [-> | Hstat]; [left; split; [left |]; reflexivity |].
  unfold Posix.convert, Posix.io_bind, Posix.getsize.
  destruct (Posix.entries fs !! resolve raw_file) as [j |] eqn:Hraw;
    [right; exists j; split; [exact Hstat |]; split; [reflexivity |]
    | left; split; [right; reflexivity | destruct flt; reflexivity || congruence]].
  replace (match flt with
           | Posix.StatFails => (Raise OSError, fs)
           | _ => (Ok (Z.of_nat (length (Posix.content fs j))), fs)
           end) with (Ok (Z.of_nat (length (Posix.content fs j))), fs)
    by (destruct flt; reflexivity || congruence).
  cbv zeta.
  destruct (Z.eqb_spec (Z.of_nat (length (Posix.content fs j)) mod (1024 * 1024)) 0)
    as [Hmod | Hmod]; cbn [negb];
    [right; split; [exact Hmod |] | left; split; [exact Hmod | reflexivity]].
  assert (Hin : Posix.entries (written []) !! resolve raw_file = Some j)
    by (apply posix_written_entries; exact Hraw).
  pose proof (posix_written_content resolve vhd_file fs) as Hwc.
  pose proof (posix_written_again resolve vhd_file fs) as Hwa.
  pose proof (posix_body resolve vhd_file fs) as Hwb.
  fold out in Hwc, Hwa, Hwb. fold written in Hwc, Hwa, Hwb.
  destruct flt; [| congruence | reflexivity | | |].
  all: unfold Posix.open_wb, Posix.open_rb, Posix.copyfileobj, Posix.write_footer,
         Posix.write, Posix.write_failing, Posix.io_lift; cbv zeta.
  all: fold out; fold (written []).
  all: rewrite ?Hin; rewrite ?Hwc; rewrite ?Hwb; cbn [app].
  all: rewrite ?Hwa, ?Hwc.
  all: try reflexivity.
  all: destruct (vhd_footer unique_id (Z.of_nat (length (Posix.content fs j))));
    rewrite ?Hwa, ?Hwc; reflexivity.
Qed.

(** Whatever the run did, it left the file system as it was or stored
    some bytes in the output. *)
Lemma posix_convert_state (flt : Posix.fault) :
  (Posix.convert resolve flt unique_id raw_file vhd_file fs).2 = fs
  \/ exists d : list byte,
       (Posix.convert resolve flt unique_id raw_file vhd_file fs).2 = written d.
Proof.
  pose proof (posix_convert_cases flt) as H. cbv zeta in H.
  destruct H as [[_ ->] | (j & _ & _ & [[_ ->] | [_ H]])];
    [left; reflexivity | left; reflexivity |].
  destruct flt;
    try destruct (vhd_footer unique_id (Z.of_nat (length (Posix.content fs j))));
    try contradiction; rewrite H; cbn [snd]; eauto.
Qed.
End PosixRun.

Lemma posix_convert_aligned
    (resolve : string -> string) (flt : Posix.fault) (unique_id : list byte)
    (raw_file vhd_file : string) (fs : Posix.fsys) (j : N) :
  Posix.entries fs !! resolve raw_file = Some j ->
  Z.of_nat (length (Posix.content fs j)) mod (1024 * 1024) = 0 ->
  let out := Posix.output_inode resolve fs vhd_file in
  let body := if decide (j = out) then [] else Posix.content fs j in
  Posix.convert resolve flt unique_id raw_file vhd_file fs
  = match flt with
    | Posix.StatFails => (Raise OSError, fs)
    | Posix.OpenOutputFails => (Raise IOError, fs)
    | Posix.OpenInputFails => (Raise IOError, Posix.store resolve vhd_file out [] fs)
    | Posix.CopyFails n =>
        (Raise IOError, Posix.store resolve vhd_file out (take n body) fs)
    | Posix.FooterWriteFails n =>
        match vhd_footer unique_id (Z.of_nat (length (Posix.content fs j))) with
        | Ok footer =>
            (Raise IOError, Posix.store resolve vhd_file out (body ++ take n footer) fs)
        | Raise e => (Raise e, Posix.store resolve vhd_file out body fs)
        end
    | Posix.NoFault =>
        match vhd_footer unique_id (Z.of_nat (length (Posix.content fs j))) with
        | Ok footer => (Ok tt, Posix.store resolve vhd_file out (body ++ footer) fs)
        | Raise e => (Raise e, Posix.store resolve vhd_file out body fs)
        end
    end.
Proof.
  intros Hraw Hmod out body.
  pose proof (posix_convert_cases resolve unique_id raw_file vhd_file fs flt) as H.
  cbv zeta in H.
  destruct H as [[[-> | Hnone] H] | (j' & _ & Hj' & [[Hne _] | [_ H]])].
  - exact H.
  - congruence.
  - exfalso. apply Hne. replace j' with j by congruence. exact Hmod.
  - replace j' with j in H by congruence.
    destruct flt;
      try destruct (vhd_footer unique_id (Z.of_nat (length (Posix.content fs j))));
      try contradiction; exact H.
Qed.

(** C7, amended: for every input file whose size is a multiple of
    1,048,576 (and below 2^64) and every output path that does not
    denote the input file, under the same spelling, another one or a
    link, a run in which no file operation fails succeeds and leaves in
    the output file the input bytes followed by the 512 bytes of
    [vhd_footer]; its size is the input size plus 512, and the input
    file still holds its bytes. *)
Theorem convert_appends_footer
    (resolve : string -> string) (unique_id : list byte)
    (rawPath vhdPath : string) (fs : Posix.fsys) (j : N) :
  Posix.entries fs !! resolve rawPath = Some j ->
  Posix.entries fs !! resolve vhdPath <> Some j ->
  Z.of_nat (length (Posix.content fs j)) mod 1048576 = 0 ->
  Z.of_nat (length (Posix.content fs j)) < 2 ^ 64 ->
  exists footer : list byte,
    vhd_footer unique_id (Z.of_nat (length (Posix.content fs j))) = Ok footer
    /\ length footer = 512%nat
    /\ (Posix.convert resolve Posix.NoFault unique_id rawPath vhdPath fs).1 = Ok tt
    /\ Posix.read_path resolve
         (Posix.convert resolve Posix.NoFault unique_id rawPath vhdPath fs).2 vhdPath
       = Some (Posix.content fs j ++ footer)
    /\ Posix.read_path resolve
         (Posix.convert resolve Posix.NoFault unique_id rawPath vhdPath fs).2 rawPath
       = Some (Posix.content fs j)
    /\ length (Posix.content fs j ++ footer) = (length (Posix.content fs j) + 512)%nat.
Proof.
  intros Hraw Hother Hmod Hsize.
  destruct (vhd_footer_returns unique_id (Z.of_nat (length (Posix.content fs j)))
              ltac:(lia)) as (footer & Hfooter & Hlen).
  exists footer. split; [exact Hfooter |]. split; [exact Hlen |].
  rewrite (posix_convert_aligned resolve Posix.NoFault unique_id rawPath vhdPath fs j
             Hraw Hmod).
  cbv zeta. rewrite Hfooter. cbn [fst snd].
  pose proof (posix_out_other resolve vhdPath fs (resolve rawPath) j Hraw Hother) as Hj.
  rewrite decide_False by exact Hj.
  split; [reflexivity |]. unfold Posix.read_path.
  rewrite posix_written_out, posix_written_content.
  rewrite (posix_written_entries resolve vhdPath fs _ _ _ Hraw).
  rewrite posix_written_content_ne by exact Hj.
  split; [reflexivity |]. split; [reflexivity |].
  rewrite length_app, Hlen. reflexivity.
Qed.

Lemma convert_appends_footer_witness :
  let fs := Posix.mkFsys {[ "disk.raw"%string := 1%N ]} {[ 1%N := zeros 1048576 ]} in
  Posix.entries fs !! Posix.strip_dot "disk.raw" = Some 1%N
  /\ Posix.content fs 1 = zeros 1048576
  /\ exists footer : list byte,
       vhd_footer (replicate 16 x2a) (Z.of_nat (length (Posix.content fs 1))) = Ok footer
       /\ length footer = 512%nat
       /\ (Posix.convert Posix.strip_dot Posix.NoFault (replicate 16 x2a)
             "disk.raw" "./disk.vhd" fs).1 = Ok tt
       /\ Posix.read_path Posix.strip_dot
            (Posix.convert Posix.strip_dot Posix.NoFault (replicate 16 x2a)
               "disk.raw" "./disk.vhd" fs).2 "./disk.vhd"
          = Some (Posix.content fs 1 ++ footer)
       /\ Posix.read_path Posix.strip_dot
            (Posix.convert Posix.strip_dot Posix.NoFault (replicate 16 x2a)
               "disk.raw" "./disk.vhd" fs).2 "disk.raw"
          = Some (Posix.content fs 1)
       /\ length (Posix.content fs 1 ++ footer)
          = (length (Posix.content fs 1) + 512)%nat.
Proof.
  intros fs.
  assert (Hraw : Posix.entries fs !! Posix.strip_dot "disk.raw" = Some 1%N)
    by reflexivity.
  assert (Hc : Posix.content fs 1 = zeros 1048576).
  { unfold Posix.content, fs. cbn [Posix.contents].
    rewrite lookup_singleton_eq. reflexivity. }
  assert (Hother : Posix.entries fs !! Posix.strip_dot "./disk.vhd" <> Some 1%N)
    by (vm_compute; discriminate).
  assert (Hlen : Z.of_nat (length (Posix.content fs 1)) = 1048576)
    by (rewrite Hc; apply length_zeros; lia).
  assert (Hmod : Z.of_nat (length (Posix.content fs 1)) mod 1048576 = 0)
    by (rewrite Hlen; reflexivity).
  assert (Hsize : Z.of_nat (length (Posix.content fs 1)) < 2 ^ 64)
    by (rewrite Hlen; reflexivity).
  split; [exact Hraw |]. split; [exact Hc |].
  exact (convert_appends_footer Posix.strip_dot (replicate 16 x2a)
           "disk.raw" "./disk.vhd" fs 1 Hraw Hother Hmod Hsize).
Defined.

(** When the output path denotes the input file, under the same
    spelling, another one or a link, only the footer is left. *)
Lemma posix_convert_onto_input
    (resolve : string -> string) (unique_id : list byte)
    (rawPath vhdPath : string) (fs : Posix.fsys) (j : N) :
  Posix.entries fs !! resolve rawPath = Some j ->
  Posix.entries fs !! resolve vhdPath = Some j ->
  Z.of_nat (length (Posix.content fs j)) mod 1048576 = 0 ->
  Z.of_nat (length (Posix.content fs j)) < 2 ^ 64 ->
  exists footer : list byte,
    length footer = 512%nat
    /\ (Posix.convert resolve Posix.NoFault unique_id rawPath vhdPath fs).1 = Ok tt
    /\ Posix.read_path resolve
         (Posix.convert resolve Posix.NoFault unique_id rawPath vhdPath fs).2 rawPath
       = Some footer.
Proof.
  intros Hraw Hvhd Hmod Hsize.
  destruct (vhd_footer_returns unique_id (Z.of_nat (length (Posix.content fs j)))
              ltac:(lia)) as (footer & Hfooter & Hlen).
  exists footer. split; [exact Hlen |].
  rewrite (posix_convert_aligned resolve Posix.NoFault unique_id rawPath vhdPath fs j
             Hraw Hmod).
  cbv zeta. rewrite Hfooter. cbn [fst snd].
  assert (Hout : Posix.output_inode resolve fs vhdPath = j)
    by (unfold Posix.output_inode; rewrite Hvhd; reflexivity).
  rewrite decide_True by (symmetry; exact Hout).
  split; [reflexivity |]. unfold Posix.read_path.
  rewrite (posix_written_entries resolve vhdPath fs _ _ _ Hraw).
  rewrite <- Hout. rewrite posix_written_content. reflexivity.
Qed.

(** On a file of one megabyte, converted onto another spelling of its
    own path, the input is lost. *)
Example posix_convert_other_spelling :
  let fs := Posix.mkFsys {[ "disk.raw"%string := 1%N ]} {[ 1%N := zeros 1048576 ]} in
  exists footer : list byte,
    length footer = 512%nat
    /\ Posix.read_path Posix.strip_dot
         (Posix.convert Posix.strip_dot Posix.NoFault (replicate 16 x2a)
            "disk.raw" "./disk.raw" fs).2 "disk.raw"
       = Some footer.
Proof.
  intros fs.
  assert (Hc : Posix.content fs 1 = zeros 1048576).
  { unfold Posix.content, fs. cbn [Posix.contents].
    rewrite lookup_singleton_eq. reflexivity. }
  assert (Hlen : Z.of_nat (length (Posix.content fs 1)) = 1048576)
    by (rewrite Hc; apply length_zeros; lia).
  destruct (posix_convert_onto_input Posix.strip_dot (replicate 16 x2a)
              "disk.raw" "./disk.raw" fs 1) as (footer & Hf & _ & Hread).
  - reflexivity.
  - reflexivity.
  - rewrite Hlen. reflexivity.
  - rewrite Hlen. reflexivity.
  - exists footer. split; assumption.
Qed.

(** X15: [convert] returns normally exactly when no file operation of
    the run fails, the input path denotes a file, its size is a
    multiple of 1,048,576, and the size is below 2^64. *)
Theorem convert_succeeds_iff
    (resolve : string -> string) (flt : Posix.fault) (unique_id : list byte)
    (rawPath vhdPath : string) (fs : Posix.fsys) :
  (Posix.convert resolve flt unique_id rawPath vhdPath fs).1 = Ok tt
  <-> flt = Posix.NoFault
      /\ exists j : N,
           Posix.entries fs !! resolve rawPath = Some j
           /\ Z.of_nat (length (Posix.content fs j)) mod 1048576 = 0
           /\ Z.of_nat (length (Posix.content fs j)) < 2 ^ 64.
Proof.
  pose proof (posix_convert_cases resolve unique_id rawPath vhdPath fs flt) as H.
  cbv zeta in H.
  destruct H as [[[-> | Hnone] ->] | (j & _ & Hj & [[Hne ->] | [Hmod H]])]; cbn [fst].
  - split; [discriminate |]. intros [Hf _]. discriminate Hf.
  - split; [discriminate |]. intros (_ & j & Hj & _). congruence.
  - split; [discriminate |]. intros (_ & j' & Hj' & Hm & _).
    replace j' with j in Hm by congruence. contradiction.
  - destruct (vhd_footer_cases unique_id (Z.of_nat (length (Posix.content fs j))))
      as [[Hsize Hok] | [Hsize Herr]].
    + rewrite Hok in H.
      destruct flt; try contradiction; rewrite H; cbn [fst]; split;
        try discriminate.
      * intros _. split; [reflexivity |]. exists j. repeat split; assumption || lia.
      * intros _. reflexivity.
      * intros [Hf _]. discriminate Hf.
      * intros [Hf _]. discriminate Hf.
      * intros [Hf _]. discriminate Hf.
      * intros [Hf _]. discriminate Hf.
    + rewrite Herr in H.
      destruct flt; try contradiction; rewrite H; cbn [fst]; split;
        try discriminate.
      * intros (_ & j' & Hj' & _ & Hs). replace j' with j in Hs by congruence. lia.
      * intros [Hf _]. discriminate Hf.
      * intros [Hf _]. discriminate Hf.
      * intros [Hf _]. discriminate Hf.
      * intros [Hf _]. discriminate Hf.
Qed.

(** X16: whatever the outcome and whatever fails, a path that resolves
    to another location than the output path, and does not name the
    file the output path denotes, reads the same after the run as
    before. *)
Theorem convert_touches_only_output
    (resolve : string -> string) (flt : Posix.fault) (unique_id : list byte)
    (rawPath vhdPath path : string) (fs : Posix.fsys) :
  resolve path <> resolve vhdPath ->
  (forall k : N, Posix.entries fs !! resolve path = Some k ->
                 Posix.entries fs !! resolve vhdPath <> Some k) ->
  Posix.read_path resolve
    (Posix.convert resolve flt unique_id rawPath vhdPath fs).2 path
  = Posix.read_path resolve fs path.
Proof.
  intros Hloc Hino.
  destruct (posix_convert_state resolve unique_id rawPath vhdPath fs flt)
    as [-> | [d ->]]; [reflexivity |].
  unfold Posix.read_path.
  rewrite posix_written_entries_ne by exact Hloc.
  destruct (Posix.entries fs !! resolve path) as [k |] eqn:Hk; [| reflexivity].
  rewrite posix_written_content_ne; [reflexivity |].
  apply (posix_out_other resolve vhdPath fs (resolve path) k Hk).
  apply Hino. reflexivity.
Qed.

Lemma convert_touches_only_output_witness :
  let fs := Posix.mkFsys {[ "disk.raw"%string := 1%N; "notes.txt"%string := 2%N ]}
                         {[ 1%N := []; 2%N := [x2a] ]} in
  Posix.strip_dot "notes.txt" <> Posix.strip_dot "./disk.vhd"
  /\ Posix.read_path Posix.strip_dot
       (Posix.convert Posix.strip_dot Posix.NoFault (replicate 16 x2a)
          "disk.raw" "./disk.vhd" fs).2 "notes.txt"
     = Posix.read_path Posix.strip_dot fs "notes.txt".
Proof.
  intros fs.
  assert (Hloc : Posix.strip_dot "notes.txt" <> Posix.strip_dot "./disk.vhd")
    by (vm_compute; discriminate).
  split; [exact Hloc |].
  apply (convert_touches_only_output Posix.strip_dot Posix.NoFault (replicate 16 x2a)
           "disk.raw" "./disk.vhd" "notes.txt" fs Hloc).
  intros k _. vm_compute. discriminate.
Defined.

(** X17: when the output path denotes a file other than the input, the
    input is aligned, and neither reading its size nor opening the
    output fails, the run does not depend on what the output file held
    before. *)
Theorem convert_overwrites_output
    (resolve : string -> string) (flt : Posix.fault) (unique_id : list byte)
    (rawPath vhdPath : string) (fs : Posix.fsys) (i j : N) (old : list byte) :
  Posix.entries fs !! resolve rawPath = Some j ->
  Posix.entries fs !! resolve vhdPath = Some i ->
  i <> j ->
  Z.of_nat (length (Posix.content fs j)) mod 1048576 = 0 ->
  flt <> Posix.StatFails ->
  flt <> Posix.OpenOutputFails ->
  Posix.convert resolve flt unique_id rawPath vhdPath (Posix.set_content i old fs)
  = Posix.convert resolve flt unique_id rawPath vhdPath fs.
Proof.
  intros Hraw Hvhd Hij Hmod Hstat Hflt.
  assert (Hcj : Posix.content (Posix.set_content i old fs) j = Posix.content fs j).
  { unfold Posix.content, Posix.set_content. cbn [Posix.contents].
    rewrite lookup_insert_ne by exact Hij. reflexivity. }
  assert (Hout : Posix.output_inode resolve (Posix.set_content i old fs) vhdPath = i)
    by (unfold Posix.output_inode; cbn [Posix.set_content Posix.entries];
        rewrite Hvhd; reflexivity).
  assert (Hout' : Posix.output_inode resolve fs vhdPath = i)
    by (unfold Posix.output_inode; rewrite Hvhd; reflexivity).
  assert (Hst : forall d, Posix.store resolve vhdPath i d (Posix.set_content i old fs)
                          = Posix.store resolve vhdPath i d fs).
  { intros d. unfold Posix.store, Posix.set_content.
    cbn [Posix.entries Posix.contents]. rewrite insert_insert_eq. reflexivity. }
  rewrite (posix_convert_aligned resolve flt unique_id rawPath vhdPath
             (Posix.set_content i old fs) j Hraw);
    [| rewrite Hcj; exact Hmod].
  rewrite (posix_convert_aligned resolve flt unique_id rawPath vhdPath fs j Hraw Hmod).
  cbv zeta. rewrite Hout, Hout', Hcj.
  destruct flt;
    try destruct (vhd_footer unique_id (Z.of_nat (length (Posix.content fs j))));
    rewrite ?Hst; try reflexivity; congruence.
Qed.

Lemma convert_overwrites_output_witness :
  let fs := Posix.mkFsys {[ "disk.raw"%string := 1%N; "disk.vhd"%string := 2%N ]}
                         {[ 1%N := []; 2%N := [x01] ]} in
  Posix.entries fs !! Posix.strip_dot "disk.raw" = Some 1%N
  /\ Posix.entries fs !! Posix.strip_dot "./disk.vhd" = Some 2%N
  /\ Posix.convert Posix.strip_dot Posix.NoFault (replicate 16 x2a)
       "disk.raw" "./disk.vhd" (Posix.set_content 2 [x02; x03] fs)
     = Posix.convert Posix.strip_dot Posix.NoFault (replicate 16 x2a)
         "disk.raw" "./disk.vhd" fs.
Proof.
  intros fs.
  assert (Hraw : Posix.entries fs !! Posix.strip_dot "disk.raw" = Some 1%N)
    by reflexivity.
  assert (Hvhd : Posix.entries fs !! Posix.strip_dot "./disk.vhd" = Some 2%N)
    by reflexivity.
  split; [exact Hraw |]. split; [exact Hvhd |].
  apply (convert_overwrites_output Posix.strip_dot Posix.NoFault (replicate 16 x2a)
           "disk.raw" "./disk.vhd" fs 2 1 [x02; x03] Hraw Hvhd);
    [discriminate | reflexivity | discriminate | discriminate].
Defined.

(** ** The two file systems agree

    Where every path is its own location and no two locations share an
    inode, a run without faults on named files is the run of [convert]
    on the file system of paths. *)

Section Refinement.
Variable unique_id : list byte.
Variables raw_file vhd_file : string.
Variable fs : Posix.fsys.
Hypothesis no_links :
  forall (l1 l2 : string) (k : N),
    Posix.entries fs !! l1 = Some k -> Posix.entries fs !! l2 = Some k -> l1 = l2.

Let out : N := Posix.output_inode (fun p => p) fs vhd_file.

Lemma view_lookup (l : string) :
  Posix.view fs !! l = Posix.content fs <$> Posix.entries fs !! l.
Proof. unfold Posix.view. apply lookup_fmap. Qed.

Lemma view_store (d : list byte) :
  Posix.view (Posix.store (fun p => p) vhd_file out d fs)
  = <[vhd_file := d]> (Posix.view fs).
Proof.
  apply map_eq. intros l. unfold Posix.view at 1. rewrite lookup_fmap.
  unfold Posix.store at 2. cbn [Posix.entries].
  destruct (decide (vhd_file = l)) as [<- | Hl].
  - rewrite !lookup_insert_eq. cbn [fmap option_fmap option_map].
    unfold out. rewrite posix_written_content. reflexivity.
  - rewrite !lookup_insert_ne by exact Hl. rewrite view_lookup.
    destruct (Posix.entries fs !! l) as [k |] eqn:Hk; [| reflexivity].
    cbn [fmap option_fmap option_map]. f_equal.
    apply posix_written_content_ne. intros ->.
    destruct (posix_out_cases (fun p => p) vhd_file fs) as [Ho | [_ Ho]].
    + apply Hl. apply (no_links vhd_file l _ Ho Hk).
    + apply Ho. apply (elem_of_map_img_2 _ l). exact Hk.
Qed.

Lemma posix_convert_refines :
  (Posix.convert (fun p => p) Posix.NoFault unique_id raw_file vhd_file fs).1
  = (convert unique_id raw_file vhd_file (Posix.view fs)).1
  /\ Posix.view
       (Posix.convert (fun p => p) Posix.NoFault unique_id raw_file vhd_file fs).2
     = (convert unique_id raw_file vhd_file (Posix.view fs)).2.
Proof.
  pose proof (posix_convert_cases (fun p => p) unique_id raw_file vhd_file fs
                Posix.NoFault) as H.
  cbv zeta in H.
  destruct H as [[[Hf | Hnone] ->] | (j & _ & Hj & H)]; [discriminate Hf | |].
  - rewrite (convert_missing unique_id raw_file vhd_file (Posix.view fs)).
    + split; reflexivity.
    + rewrite view_lookup, Hnone. reflexivity.
  - assert (Hraw : Posix.view fs !! raw_file = Some (Posix.content fs j))
      by (rewrite view_lookup, Hj; reflexivity).
    destruct H as [[Hne ->] | [Hmod H]].
    + rewrite (convert_misaligned unique_id raw_file vhd_file (Posix.view fs) _ Hraw Hne).
      split; reflexivity.
    + rewrite (convert_aligned unique_id raw_file vhd_file (Posix.view fs) _ Hraw Hmod).
      fold out in H.
      assert (Hbody :
        (if decide (j = out) then [] else Posix.content fs j)
        = (if decide (raw_file = vhd_file) then [] else Posix.content fs j)).
      { destruct (decide (raw_file = vhd_file)) as [-> | Hp].
        - rewrite decide_True; [reflexivity |].
          unfold out, Posix.output_inode. rewrite Hj. reflexivity.
        - rewrite decide_False; [reflexivity |]. intros ->.
          destruct (posix_out_cases (fun p => p) vhd_file fs) as [Ho | [_ Ho]].
          + apply Hp. apply (no_links raw_file vhd_file _ Hj Ho).
          + apply Ho. apply (elem_of_map_img_2 _ raw_file). exact Hj. }
      rewrite Hbody in H.
      destruct (vhd_footer unique_id (Z.of_nat (length (Posix.content fs j))));
        rewrite H; cbn [fst snd]; rewrite view_store; split; reflexivity.
Qed.
End Refinement.
